(** * bntmx: the Tiled map converter (bntmx.py)

    A shallow embedding of the converter: Python integers are [Z], Python
    lists are [list], a [dict] is an association list in iteration order,
    the class attribute [MapObject._next_id_value] is a piece of state that
    is threaded explicitly, and a raised exception is an [Error] result. *)

From Stdlib Require Import ZArith List String Ascii Bool Lia.
From Stdlib Require Import Sorted OrdersEx DecimalString.
Import ListNotations.

Open Scope string_scope.
Open Scope list_scope.
Open Scope Z_scope.

(** String concatenation, Python's [+] on [str]. *)
Infix "+++" := String.append (right associativity, at level 60).

(** ** Python builtins the converter relies on *)

Module Py.

Definition len {A : Type} (l : list A) : Z := Z.of_nat (List.length l).

(** [str(i)] for an integer. *)
Definition str (i : Z) : string := NilZero.string_of_int (Z.to_int i).

(** [sep.join(l)]. *)
Fixpoint join (sep : string) (l : list string) : string :=
  match l with
  | [] => ""
  | [x] => x
  | x :: r => x +++ sep +++ join sep r
  end.

(** [s * n] for a string [s] and a literal count [n]. *)
Fixpoint times (s : string) (n : nat) : string :=
  match n with
  | O => ""
  | S k => s +++ times s k
  end.

(** [enumerate(l)]. *)
Fixpoint enumerate_from {A : Type} (i : Z) (l : list A) : list (Z * A) :=
  match l with
  | [] => []
  | x :: r => (i, x) :: enumerate_from (i + 1) r
  end.

Definition enumerate {A : Type} (l : list A) : list (Z * A) :=
  enumerate_from 0 l.

(** [l[i:j]] for [0 <= i <= j], the only slices the converter takes. *)
Definition slice {A : Type} (l : list A) (i j : Z) : list A :=
  firstn (Z.to_nat (j - i)) (skipn (Z.to_nat i) l).

(** [l[1:]]. *)
Definition from1 {A : Type} (l : list A) : list A := skipn 1 l.

(** [sorted(set(l))] on strings: the strictly increasing list of the
    distinct members of [l], in the order of code points. *)
Fixpoint insert (x : string) (l : list string) : list string :=
  match l with
  | [] => [x]
  | y :: r =>
      match String_as_OT.compare x y with
      | Lt => x :: y :: r
      | Eq => y :: r
      | Gt => y :: insert x r
      end
  end.

Definition sorted_set (l : list string) : list string :=
  fold_right insert [] l.

(** A [dict] with string keys, as the list of its items in iteration
    order. *)
Definition dict (V : Type) : Type := list (string * V).

Definition keys {V : Type} (d : dict V) : list string := map fst d.

Definition items {V : Type} (d : dict V) : list (string * V) := d.

(** [d[k]], paired with [k in d]: [None] when the key is absent. *)
Fixpoint get {V : Type} (d : dict V) (k : string) : option V :=
  match d with
  | [] => None
  | (k', v) :: r => if String.eqb k' k then Some v else get r k
  end.

Definition contains {V : Type} (d : dict V) (k : string) : bool :=
  match get d k with Some _ => true | None => false end.

(** A raised exception. *)
Inductive exn : Type :=
| ValueError (msg : string).

Inductive result (A : Type) : Type :=
| Ok (a : A)
| Error (e : exn).

Arguments Ok {A} a.
Arguments Error {A} e.

(** [range(0, stop, step)]: Python raises ValueError for a zero step; a
    negative step from 0 up to a non negative [stop] gives no index. *)
Definition range0 (stop step : Z) : result (list Z) :=
  if step =? 0 then Error (ValueError "range() arg 3 must not be zero")
  else if step <? 0 then Ok []
  else Ok (map (fun k => Z.of_nat k * step)
               (seq 0 (Z.to_nat ((stop + step - 1) / step)))).

End Py.

Import Py.

Definition nl : string := String "010"%char EmptyString.

(** ** The array literals *)

(** [inline_c_array(l)], on the already stringified elements. *)
Definition inline_c_array (l : list string) : string :=
  "{" +++ join "," l +++ "}".

(** [multiline_c_array(l, indentation, depth)]. *)
Definition multiline_c_array (l : list string) (indentation : string)
    (depth : nat) : string :=
  let outer_indentation := times indentation depth in
  let inner_indentation := times indentation (depth + 1) in
  let splitter := "," +++ nl +++ inner_indentation in
  "{" +++ nl +++ inner_indentation +++ join splitter l +++ nl
      +++ outer_indentation +++ "}".

(** ** The canvas size *)

Definition bg_size (size : Z) : Z :=
  if size mod 256 =? 0 then size else (size / 256 + 1) * 256.

(** ** The Map Source, as far as the converter uses it *)

(** A map object as the converter reads it: the optional symbolic name
    [id], the numeric identity [id_value], the class name ("" for a
    classless object) and the position. *)
Module MapObject.

Record t : Type := mk {
  id : option string;
  id_value : Z;
  class : string;
  position : Z * Z
}.

End MapObject.

(** What [layer.objects()] returns: the dict from class name to the list of
    the layer's objects of that class. *)
Definition ObjectLayer : Type := dict (list MapObject.t).

(** An object of the map document before its [MapObject] is constructed. *)
Record SourceObject : Type := {
  source_name : option string;
  source_class : string;
  source_position : Z * Z
}.

(** The parsed map document: [self._tmx]. Tiles are the literals of the tile
    references, [cpp_object] is [MapObject.cpp_object], whose text is
    left open. *)
Module TMX.

Record t : Type := mk {
  dimensions_in_pixels : Z * Z;
  dimensions_in_tiles : Z * Z;
  tile_dimensions : Z * Z;
  tiles : string -> list string;
  source_objects : string -> list SourceObject;
  cpp_object : MapObject.t -> string -> string
}.

End TMX.

(** The companion descriptor: [self._descriptor], a JSON object with the
    layer paths under its keys "graphics", "objects" and "tiles". *)
Module Descriptor.

Record t : Type := mk {
  graphics : list string;
  objects : list string;
  tiles : list string
}.

End Descriptor.

(** ** The identity counter

    [MapObject._next_id_value] is a class attribute, shared by every map of
    a run: computations that construct map objects thread it. *)

Definition M (A : Type) : Type := Z -> A * Z.

Definition ret {A : Type} (a : A) : M A := fun next => (a, next).

Definition bind {A B : Type} (m : M A) (k : A -> M B) : M B :=
  fun next => let (a, next') := m next in k a next'.

Notation "x <- m ;; k" := (bind m (fun x => k))
  (at level 61, m at next level, right associativity).

Definition set_next_id_value (v : Z) : M unit := fun _ => (tt, v).

Fixpoint mapM {A B : Type} (f : A -> M B) (l : list A) : M (list B) :=
  match l with
  | [] => ret []
  | x :: r => y <- f x ;; ys <- mapM f r ;; ret (y :: ys)
  end.

(** Modelled from the spec: the constructor of [MapObject] (module tmx,
    which is not among the sources at hand). The identity is taken from the
    counter, "starting at 0 and incrementing by 1 per object". *)
Definition MapObject_init (o : SourceObject) : M MapObject.t :=
  fun next =>
    (MapObject.mk (source_name o) next (source_class o) (source_position o),
     next + 1).

(** Modelled from the spec: [TMX.objects(layer_path)] followed by
    [objects()] (module tmx, not among the sources at hand), the Object
    Catalog Builder. The objects of the layer are grouped by class, "no
    object is dropped or reordered within a class"; the classes come in
    sorted order with the classless one first, and the objects are
    constructed, hence numbered, class by class in that order (invariants 1
    and 2 of the data model; the comment that [cpp_source] emits above
    [_objects] says the same of the order of the dict). The class set is
    specified to include "", so the key "" is always there. *)
Definition objects_of_class (os : list SourceObject) (c : string)
    : list SourceObject :=
  filter (fun o => String.eqb (source_class o) c) os.

Definition TMX_objects (tmx : TMX.t) (layer_path : string) : M ObjectLayer :=
  let os := TMX.source_objects tmx layer_path in
  mapM (fun c => map_objects <- mapM MapObject_init (objects_of_class os c) ;;
                 ret (c, map_objects))
       (sorted_set ("" :: map source_class os)).

(** ** The converter *)

Module TMXConverter.

Record t : Type := mk {
  _tmx : TMX.t;
  _name : string;
  _descriptor : Descriptor.t;
  _objects : list ObjectLayer
}.

End TMXConverter.

Import TMXConverter.

(** [TMXConverter.__init__]: the list of the map objects of the object
    layers, in the order of the descriptor. *)
Definition TMXConverter_init (tmx : TMX.t) (name : string)
    (descriptor : Descriptor.t) : M TMXConverter.t :=
  objects <- mapM (fun layer_path => TMX_objects tmx layer_path)
                  (Descriptor.objects descriptor) ;;
  ret (TMXConverter.mk tmx name descriptor objects).

Definition _object_classes (self : TMXConverter.t) : list string :=
  sorted_set
    (flat_map (fun layer_map_objects : ObjectLayer => keys layer_map_objects)
              (_objects self)).

Definition _object_classes_enum (self : TMXConverter.t) : list string :=
  from1
    (map (fun i_and_object_class : Z * string =>
            snd i_and_object_class +++ "=" +++ str (fst i_and_object_class))
         (enumerate (_object_classes self))).

Definition _all_objects (self : TMXConverter.t) : list MapObject.t :=
  flat_map (fun layer_map_objects : ObjectLayer =>
              flat_map (fun item : string * list MapObject.t => snd item)
                       (items layer_map_objects))
           (_objects self).

Definition _object_ids_enum (self : TMXConverter.t) : list string :=
  flat_map (fun map_object =>
              match MapObject.id map_object with
              | Some name => [name +++ "=" +++ str (MapObject.id_value map_object)]
              | None => []
              end)
           (_all_objects self).

(** [len(layer.objects()[object_class]) if object_class in layer.objects()
    else 0]. *)
Definition class_length (layer : ObjectLayer) (object_class : string) : Z :=
  match get layer object_class with
  | Some map_objects => len map_objects
  | None => 0
  end.

(** The inner loop of [_object_spans]: the row of one layer and the index
    after it. *)
Fixpoint layer_index_lengths (layer : ObjectLayer)
    (object_classes : list string) (index : Z) : list (Z * Z) * Z :=
  match object_classes with
  | [] => ([], index)
  | object_class :: rest =>
      let length := class_length layer object_class in
      let (row, index') := layer_index_lengths layer rest (index + length) in
      ((index, length) :: row, index')
  end.

(** The outer loop of [_object_spans]. *)
Fixpoint index_lengths (layers : list ObjectLayer)
    (object_classes : list string) (index : Z) : list (list (Z * Z)) :=
  match layers with
  | [] => []
  | layer :: rest =>
      let (row, index') := layer_index_lengths layer object_classes index in
      row :: index_lengths rest object_classes index'
  end.

Definition _object_spans (self : TMXConverter.t) : list (list (Z * Z)) :=
  index_lengths (_objects self) (_object_classes self) 0.

(** [regular_bg_image]: the size of the composed image and the place where
    each graphics layer is composed; the pixels are the Image Composer's. *)
Definition regular_bg_image_size (self : TMXConverter.t) : Z * Z :=
  let (src_width, src_height) := TMX.dimensions_in_pixels (_tmx self) in
  let (bg_width, bg_height) := (bg_size src_width, bg_size src_height) in
  let n_layers := len (Descriptor.graphics (_descriptor self)) in
  (bg_width, bg_height * n_layers).

Definition regular_bg_image_offsets (self : TMXConverter.t)
    : list (string * (Z * Z)) :=
  let (src_width, src_height) := TMX.dimensions_in_pixels (_tmx self) in
  let (bg_width, bg_height) := (bg_size src_width, bg_size src_height) in
  map (fun i_and_layer_path : Z * string =>
         (snd i_and_layer_path, (0, bg_height * fst i_and_layer_path)))
      (enumerate (Descriptor.graphics (_descriptor self))).

Definition dq : string := String "034"%char EmptyString.

(** The value of the "height" field of [regular_bg_descriptor]. *)
Definition regular_bg_descriptor_height (self : TMXConverter.t) : Z :=
  let (_, src_height) := TMX.dimensions_in_pixels (_tmx self) in
  let bg_height := bg_size src_height in
  bg_height.

(** [regular_bg_descriptor]: the template with its one field filled in. *)
Definition regular_bg_descriptor (self : TMXConverter.t) : string :=
  "{" +++ nl +++
  "    " +++ dq +++ "type" +++ dq +++ ": " +++ dq +++ "regular_bg" +++ dq
         +++ "," +++ nl +++
  "    " +++ dq +++ "bpp_mode" +++ dq +++ ": " +++ dq +++ "bpp_4_auto" +++ dq
         +++ "," +++ nl +++
  "    " +++ dq +++ "height" +++ dq +++ ": "
         +++ str (regular_bg_descriptor_height self) +++ nl +++
  "}" +++ nl.

(** [cpp_header]: the enumerations of classes and identifiers it declares
    (the guard and the tile identifiers come from the tilesets, which are
    left out). *)
Definition cpp_header_object_classes (self : TMXConverter.t) : string :=
  multiline_c_array (_object_classes_enum self) "    " 3.

Definition cpp_header_object_ids (self : TMXConverter.t) : string :=
  multiline_c_array (_object_ids_enum self) "    " 3.

(** The rows [tiles[i:i + width_in_tiles] for i in range(0, len(tiles),
    width_in_tiles)] of [tiles_to_array_literal]. *)
Definition tiles_rows (width_in_tiles : Z) (tiles : list string)
    : result (list (list string)) :=
  match range0 (len tiles) width_in_tiles with
  | Error e => Error e
  | Ok indices =>
      Ok (map (fun i => slice tiles i (i + width_in_tiles)) indices)
  end.

Definition tiles_to_array_literal (width_in_tiles : Z) (tiles : list string)
    : result string :=
  match tiles_rows width_in_tiles tiles with
  | Error e => Error e
  | Ok rows => Ok (multiline_c_array (map (join ",") rows) "    " 2)
  end.

(** [list(map(f, l))] for an [f] that may raise. *)
Fixpoint map_result {A B : Type} (f : A -> result B) (l : list A)
    : result (list B) :=
  match l with
  | [] => Ok []
  | x :: r =>
      match f x with
      | Error e => Error e
      | Ok y =>
          match map_result f r with
          | Error e => Error e
          | Ok ys => Ok (y :: ys)
          end
      end
  end.

(** The dummy element that stands for an empty [_objects] array. *)
Definition dummy_object : string :=
  "{bntmx::map_object(bn::fixed_point(0, 0), 0)}".

(** The arguments that [cpp_source] gives to its template. *)
Record Source : Type := {
  header_filename : string;
  map_name : string;
  n_objects_layers : Z;
  n_tiles_layers : Z;
  size : Z;
  tiles : string;
  objects_spans : string;
  n_objects : Z;
  n_objects_classes : Z;
  cpp_objects : string
}.

Definition cpp_source (self : TMXConverter.t) : result Source :=
  let header_filename := "bntmx_maps_" +++ _name self +++ ".h" in
  let (width_in_tiles, height_in_tiles) :=
    TMX.dimensions_in_tiles (_tmx self) in
  let n_objects_layers := len (Descriptor.objects (_descriptor self)) in
  let n_tiles_layers := len (Descriptor.tiles (_descriptor self)) in
  let size := width_in_tiles * height_in_tiles in
  let n_objects_classes := len (_object_classes self) in
  let objects_spans :=
    multiline_c_array
      (map (fun layer : list (Z * Z) =>
              multiline_c_array
                (map (fun span : Z * Z =>
                        inline_c_array [str (fst span); str (snd span)])
                     layer)
                "    " 2)
           (_object_spans self))
      "    " 1 in
  let flattened_objects := _all_objects self in
  let n_objects := len flattened_objects in
  let cpp_objects :=
    if len flattened_objects >? 0
    then multiline_c_array
           (map (fun i => TMX.cpp_object (_tmx self) i (_name self))
                flattened_objects)
           "    " 1
    else dummy_object in
  match
    map_result
      (fun layer_path =>
         tiles_to_array_literal width_in_tiles
           (TMX.tiles (_tmx self) layer_path))
      (Descriptor.tiles (_descriptor self))
  with
  | Error e => Error e
  | Ok tiles_literals =>
      Ok {| header_filename := header_filename;
            map_name := _name self;
            n_objects_layers := n_objects_layers;
            n_tiles_layers := n_tiles_layers;
            size := size;
            tiles := multiline_c_array tiles_literals "    " 1;
            objects_spans := objects_spans;
            n_objects := n_objects;
            n_objects_classes := n_objects_classes;
            cpp_objects := cpp_objects |}
  end.

(** ** The emitted C++ program

    The tables that the emitted source defines and the four accessors of
    its template, as C++ runs them: [BN_ASSERT] aborts when its condition is
    false, and an array read outside its bounds has no defined result. *)

Module Emitted.

(** An element of the array [_objects]. *)
Inductive map_object : Type :=
| dummy
| object_of (o : MapObject.t).

Record program : Type := {
  n_objects : Z;
  n_objects_layers : Z;
  n_objects_classes : Z;
  n_tiles_layers : Z;
  size : Z;
  _objects : list map_object;
  _objects_spans : list (list (Z * Z));
  _tiles : list (list string)
}.

Inductive outcome (A : Type) : Type :=
| Aborted (message : string)
| Returned (a : A)
| Undefined.

Arguments Aborted {A} message.
Arguments Returned {A} a.
Arguments Undefined {A}.

(** [a[i]] on a C array. *)
Definition at_index {A : Type} (a : list A) (i : Z) : option A :=
  if i <? 0 then None else nth_error a (Z.to_nat i).

Definition object (p : program) (id : Z) : outcome map_object :=
  if id <? n_objects p then
    match at_index (_objects p) id with
    | Some o => Returned o
    | None => Undefined
    end
  else Aborted "Invalid object ID: ".

(** A [bn::span] over [_objects] is returned as its first index and its
    length. *)
Definition objects (p : program) (objects_layer_index : Z)
    : outcome (Z * Z) :=
  if objects_layer_index <? n_objects_layers p then
    match at_index (_objects_spans p) objects_layer_index with
    | Some row =>
        match at_index row 0 with
        | Some span => Returned (fst span, snd span)
        | None => Undefined
        end
    | None => Undefined
    end
  else Aborted "Invalid objects layer index: ".

Definition objects_of_class (p : program)
    (objects_layer_index objects_class : Z) : outcome (Z * Z) :=
  if objects_layer_index <? n_objects_layers p then
    if objects_class <? n_objects_classes p then
      match at_index (_objects_spans p) objects_layer_index with
      | Some row =>
          match at_index row objects_class with
          | Some span => Returned (fst span, snd span)
          | None => Undefined
          end
      | None => Undefined
      end
    else Aborted "Invalid objects class: "
  else Aborted "Invalid objects layer index: ".

(** The span over the row of a tiles layer: the row and its length. *)
Definition tiles (p : program) (tiles_layer_index : Z)
    : outcome (list string * Z) :=
  if tiles_layer_index <? n_tiles_layers p then
    match at_index (_tiles p) tiles_layer_index with
    | Some row => Returned (row, size p)
    | None => Undefined
    end
  else Aborted "Invalid tiles layer index: ".

(** The elements a span of [_objects] gives access to. *)
Definition span_objects (p : program) (span : Z * Z) : list map_object :=
  slice (_objects p) (fst span) (fst span + snd span).

End Emitted.

(** The program that the emitted source of a converter defines: the counts
    are the template arguments, the arrays hold what the literals list. *)
Definition emitted_objects (self : TMXConverter.t)
    : list Emitted.map_object :=
  match _all_objects self with
  | [] => [Emitted.dummy]
  | flattened_objects => map Emitted.object_of flattened_objects
  end.

Definition emitted_program (self : TMXConverter.t) (source : Source)
    : Emitted.program :=
  {| Emitted.n_objects := n_objects source;
     Emitted.n_objects_layers := n_objects_layers source;
     Emitted.n_objects_classes := n_objects_classes source;
     Emitted.n_tiles_layers := n_tiles_layers source;
     Emitted.size := size source;
     Emitted._objects := emitted_objects self;
     Emitted._objects_spans := _object_spans self;
     Emitted._tiles :=
       map (fun layer_path => TMX.tiles (_tmx self) layer_path)
           (Descriptor.tiles (_descriptor self)) |}.

(** The program of the source that [cpp_source] returns, when it returns. *)
Definition emitted (self : TMXConverter.t) : result Emitted.program :=
  match cpp_source self with
  | Error e => Error e
  | Ok source => Ok (emitted_program self source)
  end.

(** The two fields of a span are emitted as [uint16_t]. *)
Definition fits_uint16 (v : Z) : Prop := 0 <= v < 65536.

Definition spans_fit_uint16 (spans : list (list (Z * Z))) : Prop :=
  Forall (Forall (fun span : Z * Z =>
                    fits_uint16 (fst span) /\ fits_uint16 (snd span)))
         spans.

(** ** The batch *)

(** A map file of a maps directory: its parsed document, its base name, its
    companion descriptor, and whether its outputs are newer than its
    inputs. *)
Record MapFile : Type := {
  map_tmx : TMX.t;
  map_basename : string;
  map_descriptor : Descriptor.t;
  map_up_to_date : bool
}.

(** What [process] writes for one map. *)
Record Artifacts : Type := {
  bmp_size : Z * Z;
  bmp_json : string;
  header_object_classes : string;
  header_object_ids : string;
  source : Source
}.

(** The head of the loop body of [process]: the counter is reset, then the
    converter is constructed. *)
Definition new_converter (f : MapFile) : M TMXConverter.t :=
  _ <- set_next_id_value 0 ;;
  TMXConverter_init (map_tmx f) (map_basename f) (map_descriptor f).

Definition export (converter : TMXConverter.t) : result Artifacts :=
  match cpp_source converter with
  | Error e => Error e
  | Ok source =>
      Ok {| bmp_size := regular_bg_image_size converter;
            bmp_json := regular_bg_descriptor converter;
            header_object_classes := cpp_header_object_classes converter;
            header_object_ids := cpp_header_object_ids converter;
            source := source |}
  end.

(** [process], on the map files of the maps directories in the order they
    are listed: the artifacts written, and the exception that ended the
    run, if one did. *)
Fixpoint process (maps : list MapFile) : M (list Artifacts * option exn) :=
  match maps with
  | [] => ret ([], None)
  | f :: rest =>
      converter <- new_converter f ;;
      if map_up_to_date f then process rest
      else
        match export converter with
        | Error e => ret ([], Some e)
        | Ok written =>
            r <- process rest ;;
            ret (written :: fst r, snd r)
        end
  end.

(** ** Vocabulary of the statements *)

(** The part of [_all_objects] that one layer contributes. *)
Definition layer_objects (layer : ObjectLayer) : list MapObject.t :=
  flat_map (fun item : string * list MapObject.t => snd item) (items layer).

(** The number of objects that the layers before the [n]-th contribute:
    where the subrange of the [n]-th layer starts in the flattened
    sequence. *)
Definition objects_before (self : TMXConverter.t) (n : nat) : Z :=
  len (flat_map layer_objects (firstn n (_objects self))).

(** The sum of the lengths of a row of spans. *)
Definition row_total (row : list (Z * Z)) : Z :=
  fold_right Z.add 0 (map snd row).

(** The spans of a row follow one another from [start], without gap or
    overlap. *)
Fixpoint contiguous_from (start : Z) (row : list (Z * Z)) : Prop :=
  match row with
  | [] => True
  | span :: rest =>
      fst span = start /\ 0 <= snd span /\
      contiguous_from (start + snd span) rest
  end.

(** The keys of a dict are distinct. *)
Definition dicts (self : TMXConverter.t) : Prop :=
  Forall (fun layer : ObjectLayer => NoDup (keys layer)) (_objects self).

(** The identities [start], [start + 1], ... of [n] objects. *)
Definition identities (start : Z) (n : nat) : list Z :=
  map (fun k => start + Z.of_nat k) (seq 0 n).

(** A computation numbers the objects it constructs: their identities, in
    the order in which [flat] lists them, are the successive values of the
    counter, which ends after the last one. *)
Definition numbers {A : Type} (flat : A -> list MapObject.t) (m : M A)
    : Prop :=
  forall next : Z,
    map MapObject.id_value (flat (fst (m next)))
    = identities next (List.length (flat (fst (m next)))) /\
    snd (m next) = next + len (flat (fst (m next))).

(** The objects that a layer holds under a class: none when the class is
    not a key of the layer. *)
Definition class_objects (layer : ObjectLayer) (c : string)
    : list MapObject.t :=
  match get layer c with
  | Some map_objects => map_objects
  | None => []
  end.

(** The layers of a converter are as many as the object layer paths of its
    descriptor, which [__init__] sees to. *)
Definition layers_of_descriptor (self : TMXConverter.t) : Prop :=
  List.length (_objects self)
  = List.length (Descriptor.objects (_descriptor self)).

(** The dicts of the layers iterate in the sorted order of their keys. *)
Definition sorted_dicts (self : TMXConverter.t) : Prop :=
  Forall (fun layer : ObjectLayer =>
            StronglySorted String_as_OT.lt (keys layer))
         (_objects self).

(** A text without its spaces and its line ends. *)
Fixpoint compact (s : string) : string :=
  match s with
  | EmptyString => EmptyString
  | String a rest =>
      if (Ascii.eqb a " "%char || Ascii.eqb a "010"%char)%bool
      then compact rest
      else String a (compact rest)
  end.

(** ** Example maps *)

Definition no_cpp_object (o : MapObject.t) (namespace : string) : string :=
  "bntmx::map_object()".

(** One object layer with an object of class "Enemy" named "boss" followed
    by a classless object; two graphics layers over 300 x 260 pixels. *)
Definition enemy_tmx : TMX.t :=
  TMX.mk (300, 260) (4, 2) (8, 8)
    (fun _ => ["1"; "2"; "3"; "4"; "5"; "6"; "7"; "8"])
    (fun _ => [ {| source_name := Some "boss"; source_class := "Enemy";
                   source_position := (8, 8) |};
                {| source_name := None; source_class := "";
                   source_position := (16, 0) |} ])
    no_cpp_object.

Definition enemy_descriptor : Descriptor.t :=
  Descriptor.mk ["ground"; "sky"] ["things"] ["collisions"].

Definition enemy_file : MapFile :=
  {| map_tmx := enemy_tmx; map_basename := "level";
     map_descriptor := enemy_descriptor; map_up_to_date := false |}.

(** The converter of that map, as [__init__] leaves it. *)
Definition enemy_map : TMXConverter.t :=
  TMXConverter.mk enemy_tmx "level" enemy_descriptor
    [ [ ("", [MapObject.mk None 0 "" (16, 0)]);
        ("Enemy", [MapObject.mk (Some "boss") 1 "Enemy" (8, 8)]) ] ].

(** A map whose one object layer has no object. *)
Definition deserted_map : TMXConverter.t :=
  TMXConverter.mk enemy_tmx "deserted" enemy_descriptor [ [ ("", []) ] ].

(** A map without object layer. *)
Definition bare_map : TMXConverter.t :=
  TMXConverter.mk enemy_tmx "bare" (Descriptor.mk ["ground"] [] ["collisions"])
    [].

(** A map whose tile layer holds 7 tile references for 4 x 2 tiles. *)
Definition short_tmx : TMX.t :=
  TMX.mk (32, 16) (4, 2) (8, 8)
    (fun _ => ["1"; "2"; "3"; "4"; "5"; "6"; "7"])
    (fun _ => [])
    no_cpp_object.

Definition short_map : TMXConverter.t :=
  TMXConverter.mk short_tmx "short" (Descriptor.mk ["ground"] [] ["collisions"])
    [].

(** A map with 65535 classless objects and one of class "Enemy". *)
Definition crowded_map : TMXConverter.t :=
  TMXConverter.mk enemy_tmx "crowd" enemy_descriptor
    [ [ ("", repeat (MapObject.mk None 0 "" (0, 0)) (Z.to_nat 65535));
        ("Enemy", [MapObject.mk None 65535 "Enemy" (0, 0)]) ] ].

(** A map whose one object layer holds one object of class "Enemy" and
    does not have the classless key. *)
Definition enemy_only_map : TMXConverter.t :=
  TMXConverter.mk enemy_tmx "enemy" enemy_descriptor
    [ [ ("Enemy", [MapObject.mk (Some "boss") 0 "Enemy" (8, 8)]) ] ].

(** A map with the layer of [enemy_map] twice, the second time with the
    items of the dict in the other order. *)
Definition shuffled_map : TMXConverter.t :=
  TMXConverter.mk enemy_tmx "shuffled"
    (Descriptor.mk ["ground"] ["things"; "others"] ["collisions"])
    [ [ ("", [MapObject.mk None 0 "" (16, 0)]);
        ("Enemy", [MapObject.mk (Some "boss") 1 "Enemy" (8, 8)]) ];
      [ ("Enemy", [MapObject.mk (Some "boss") 2 "Enemy" (8, 8)]);
        ("", [MapObject.mk None 3 "" (16, 0)]) ] ].

(** A map document that is 0 tiles wide, with one tile layer. *)
Definition flat_tmx : TMX.t :=
  TMX.mk (0, 16) (0, 2) (8, 8) (fun _ => []) (fun _ => []) no_cpp_object.

Definition flat_file : MapFile :=
  {| map_tmx := flat_tmx; map_basename := "flat";
     map_descriptor := Descriptor.mk ["ground"] [] ["collisions"];
     map_up_to_date := false |}.

Definition zero_width_map : TMXConverter.t :=
  TMXConverter.mk flat_tmx "flat"
    (Descriptor.mk ["ground"] [] ["collisions"]) [].

(** * Properties *)

(** ** The examples, run *)

Example bg_size_300 : bg_size 300 = 512.
Proof. reflexivity. Qed.

Example bg_size_260 : bg_size 260 = 512.
Proof. reflexivity. Qed.

Example bg_size_512 : bg_size 512 = 512.
Proof. reflexivity. Qed.

Example enemy_map_loaded : fst (new_converter enemy_file 7) = enemy_map.
Proof. reflexivity. Qed.

Example enemy_map_classes : _object_classes enemy_map = [""; "Enemy"].
Proof. reflexivity. Qed.

Example enemy_map_enum : _object_classes_enum enemy_map = ["Enemy=1"].
Proof. reflexivity. Qed.

Example enemy_map_ids : _object_ids_enum enemy_map = ["boss=1"].
Proof. reflexivity. Qed.

Example enemy_map_spans : _object_spans enemy_map = [[(0, 1); (1, 1)]].
Proof. reflexivity. Qed.

Example short_map_rows :
  tiles_rows 4 ["1"; "2"; "3"; "4"; "5"; "6"; "7"]
  = Ok [["1"; "2"; "3"; "4"]; ["5"; "6"; "7"]].
Proof. reflexivity. Qed.

Example zero_width_raises :
  tiles_rows 0 ["1"] = Error (ValueError "range() arg 3 must not be zero").
Proof. reflexivity. Qed.

(** ** The canvas size *)

Lemma bg_size_multiple (size : Z) : bg_size size mod 256 = 0.
Proof.
  unfold bg_size.
  destruct (size mod 256 =? 0) eqn:E.
  - now apply Z.eqb_eq.
  - apply Z.mod_mul. lia.
Qed.

Lemma bg_size_bounds (size : Z) : size <= bg_size size < size + 256.
Proof.
  unfold bg_size.
  destruct (size mod 256 =? 0) eqn:E; [lia|].
  apply Z.eqb_neq in E.
  pose proof (Z.div_mod size 256 ltac:(lia)) as D.
  pose proof (Z.mod_pos_bound size 256 ltac:(lia)) as B.
  lia.
Qed.

(** C7. [bg_size] is the rounding function of the Canvas Sizer: it returns
    [size] when [size mod 256 = 0] and [256 * (size / 256 + 1)] otherwise
    (floor division); hence its result is a multiple of 256, is at least
    [size] and exceeds [size] by less than 256, and a multiple of 256 is
    left unchanged. This holds for every integer, in particular for the non
    negative ones. *)
Theorem bg_size_rounds_up (size : Z) :
  bg_size size
  = (if size mod 256 =? 0 then size else 256 * (size / 256 + 1)) /\
  bg_size size mod 256 = 0 /\
  bg_size size >= size /\
  bg_size size - size < 256 /\
  bg_size (256 * size) = 256 * size.
Proof.
  pose proof (bg_size_bounds size) as B.
  repeat split; try lia.
  - unfold bg_size. destruct (size mod 256 =? 0); lia.
  - apply bg_size_multiple.
  - unfold bg_size. rewrite Z.mul_comm, Z.mod_mul by lia. reflexivity.
Qed.

(** C6, as the spec states it, fails: with two graphics layers over a map
    260 pixels high the descriptor holds 512, not 2 x 512. *)
Lemma descriptor_height_not_stacked :
  len (Descriptor.graphics (_descriptor enemy_map)) = 2 /\
  snd (TMX.dimensions_in_pixels (_tmx enemy_map)) = 260 /\
  regular_bg_descriptor_height enemy_map = 512 /\
  regular_bg_descriptor_height enemy_map
  <> bg_size 260 * len (Descriptor.graphics (_descriptor enemy_map)).
Proof. repeat split. discriminate. Qed.

(** C6, amended. The height written into the background descriptor is the
    source pixel height rounded up to the next multiple of 256, the height
    of the canvas of one graphics layer, whatever the number of graphics
    layers; that height times the number of graphics layers is the height
    of the composed image, where the [i]-th layer is placed at [i] times
    the rounded height. *)
Theorem descriptor_height_is_one_layer (self : TMXConverter.t) :
  let src_height := snd (TMX.dimensions_in_pixels (_tmx self)) in
  let graphics := Descriptor.graphics (_descriptor self) in
  regular_bg_descriptor_height self = bg_size src_height /\
  regular_bg_descriptor self
  = "{" +++ nl +++
    "    " +++ dq +++ "type" +++ dq +++ ": " +++ dq +++ "regular_bg" +++ dq
           +++ "," +++ nl +++
    "    " +++ dq +++ "bpp_mode" +++ dq +++ ": " +++ dq +++ "bpp_4_auto"
           +++ dq +++ "," +++ nl +++
    "    " +++ dq +++ "height" +++ dq +++ ": " +++ str (bg_size src_height)
           +++ nl +++
    "}" +++ nl /\
  snd (regular_bg_image_size self) = bg_size src_height * len graphics /\
  map (fun placed => snd (snd placed)) (regular_bg_image_offsets self)
  = map (fun i_and_path => bg_size src_height * fst i_and_path)
        (enumerate graphics).
Proof.
  unfold regular_bg_descriptor, regular_bg_descriptor_height,
    regular_bg_image_size, regular_bg_image_offsets.
  destruct (TMX.dimensions_in_pixels (_tmx self)) as [w h]. cbn [snd fst].
  repeat split.
  rewrite map_map. reflexivity.
Qed.

(** ** The accessors of the emitted program *)

Lemma at_index_negative {A : Type} (a : list A) (i : Z) :
  i < 0 -> Emitted.at_index a i = None.
Proof.
  intros H. unfold Emitted.at_index.
  now replace (i <? 0) with true by (symmetry; now apply Z.ltb_lt).
Qed.

(** C8, as the spec states it, fails: the identifier -1 is outside of
    [0, n_objects) and the assertion of [object] lets it through; what is
    read then lies before the array. *)
Lemma negative_id_not_aborted :
  exists p, emitted enemy_map = Ok p /\
  ~ (0 <= -1 < Emitted.n_objects p) /\
  Emitted.object p (-1) = Emitted.Undefined.
Proof.
  eexists. split; [reflexivity|]. split; [cbn; lia | reflexivity].
Qed.

(** C8, amended. In every emitted program the assertion of an accessor
    fails exactly when an argument is greater than or equal to its count
    ([n_objects], [n_objects_layers], [n_objects_classes],
    [n_tiles_layers]); so among the non negative arguments the accessor
    aborts exactly on those out of range, and no negative argument is
    rejected. *)
Theorem accessors_abort_above_only (p : Emitted.program) :
  (forall id,
     (exists m, Emitted.object p id = Emitted.Aborted m)
     <-> Emitted.n_objects p <= id) /\
  (forall layer,
     (exists m, Emitted.objects p layer = Emitted.Aborted m)
     <-> Emitted.n_objects_layers p <= layer) /\
  (forall layer class,
     (exists m, Emitted.objects_of_class p layer class = Emitted.Aborted m)
     <-> Emitted.n_objects_layers p <= layer
         \/ Emitted.n_objects_classes p <= class) /\
  (forall layer,
     (exists m, Emitted.tiles p layer = Emitted.Aborted m)
     <-> Emitted.n_tiles_layers p <= layer).
Proof.
  repeat split.
  - unfold Emitted.object. intros [m H].
    destruct (id <? Emitted.n_objects p) eqn:E; [|apply Z.ltb_ge in E; lia].
    destruct (Emitted.at_index _ id); discriminate.
  - intros H. unfold Emitted.object.
    apply Z.ltb_ge in H. rewrite H. eauto.
  - unfold Emitted.objects. intros [m H].
    destruct (layer <? _) eqn:E; [|apply Z.ltb_ge in E; lia].
    destruct (Emitted.at_index _ layer) as [row|]; [|discriminate].
    destruct (Emitted.at_index row 0); discriminate.
  - intros H. unfold Emitted.objects.
    apply Z.ltb_ge in H. rewrite H. eauto.
  - unfold Emitted.objects_of_class. intros [m H].
    destruct (layer <? _) eqn:E; [|apply Z.ltb_ge in E; lia].
    destruct (class <? _) eqn:F; [|apply Z.ltb_ge in F; lia].
    destruct (Emitted.at_index _ layer) as [row|]; [|discriminate].
    destruct (Emitted.at_index row class); discriminate.
  - intros H. unfold Emitted.objects_of_class.
    destruct (layer <? _) eqn:E; [|eauto].
    destruct (class <? _) eqn:F; [|eauto].
    apply Z.ltb_lt in E, F. lia.
  - unfold Emitted.tiles. intros [m H].
    destruct (layer <? _) eqn:E; [|apply Z.ltb_ge in E; lia].
    destruct (Emitted.at_index _ layer); discriminate.
  - intros H. unfold Emitted.tiles.
    apply Z.ltb_ge in H. rewrite H. eauto.
Qed.

(** C3 fails on the code. On the layer of one classless object and one
    object of class "Enemy", whose subrange of the flattened sequence is
    the two objects from index 0, [objects(0)] returns the span of the
    classless object alone. *)
Theorem objects_returns_first_class_only :
  exists p, emitted enemy_map = Ok p /\
  len (_all_objects enemy_map) = 2 /\
  objects_before enemy_map 0 = 0 /\
  map (fun layer => len (layer_objects layer)) (_objects enemy_map) = [2] /\
  Emitted.objects p 0 = Emitted.Returned (0, 1) /\
  Emitted.span_objects p (0, 1)
  = [Emitted.object_of (MapObject.mk None 0 "" (16, 0))] /\
  Emitted.objects_of_class p 0 1 = Emitted.Returned (1, 1).
Proof.
  eexists. split; [reflexivity|]. repeat split.
Qed.

(** In general [objects(layer)] is [objects(layer, 0)]: the entry of the
    first class of the layer. *)
Lemma objects_is_class_zero (p : Emitted.program) (layer : Z) :
  0 < Emitted.n_objects_classes p ->
  Emitted.objects p layer = Emitted.objects_of_class p layer 0.
Proof.
  intros H. unfold Emitted.objects, Emitted.objects_of_class.
  apply Z.ltb_lt in H. now rewrite H.
Qed.

(** ** The sorted set of the classes *)

Lemma compare_Eq (x y : string) : String_as_OT.compare x y = Eq -> x = y.
Proof.
  intros H. destruct (String_as_OT.compare_spec x y); congruence.
Qed.

Lemma compare_Gt (x y : string) :
  String_as_OT.compare x y = Gt -> String_as_OT.lt y x.
Proof.
  intros H. destruct (String_as_OT.compare_spec x y); congruence.
Qed.

Lemma lt_trans (x y z : string) :
  String_as_OT.lt x y -> String_as_OT.lt y z -> String_as_OT.lt x z.
Proof. apply String_as_OT.lt_strorder. Qed.

Lemma lt_irrefl (x : string) : ~ String_as_OT.lt x x.
Proof. apply String_as_OT.lt_strorder. Qed.

Lemma empty_least (s : string) : s <> "" -> String_as_OT.lt "" s.
Proof. destruct s; [congruence | reflexivity]. Qed.

Lemma insert_In (x y : string) (l : list string) :
  In y (insert x l) <-> y = x \/ In y l.
Proof.
  induction l as [|z l IH]; cbn.
  - intuition.
  - destruct (String_as_OT.compare x z) eqn:E; cbn.
    + apply compare_Eq in E. subst. intuition.
    + intuition.
    + rewrite IH. intuition.
Qed.

Lemma sorted_set_In (x : string) (l : list string) :
  In x (sorted_set l) <-> In x l.
Proof.
  induction l as [|y l IH]; cbn; [tauto|].
  rewrite insert_In, IH. intuition.
Qed.

Lemma insert_sorted (x : string) (l : list string) :
  StronglySorted String_as_OT.lt l ->
  StronglySorted String_as_OT.lt (insert x l).
Proof.
  induction 1 as [|z l S IH F]; cbn.
  - repeat constructor.
  - destruct (String_as_OT.compare x z) eqn:E.
    + now constructor.
    + constructor; [now constructor|].
      constructor; [exact E|].
      eapply Forall_impl; [|exact F]. intros a. now apply lt_trans.
    + constructor; [exact IH|].
      apply Forall_forall. intros a Ha. apply insert_In in Ha as [->|Ha].
      * now apply compare_Gt.
      * rewrite Forall_forall in F. now apply F.
Qed.

Lemma sorted_set_sorted (l : list string) :
  StronglySorted String_as_OT.lt (sorted_set l).
Proof.
  induction l; cbn; [constructor | now apply insert_sorted].
Qed.

Lemma sorted_NoDup (l : list string) :
  StronglySorted String_as_OT.lt l -> NoDup l.
Proof.
  induction 1 as [|x l S IH F]; constructor; [|exact IH].
  intros Hin. rewrite Forall_forall in F. exact (lt_irrefl x (F x Hin)).
Qed.

Lemma sorted_set_NoDup (l : list string) : NoDup (sorted_set l).
Proof. apply sorted_NoDup, sorted_set_sorted. Qed.

(** The classless class, when present, comes first and only there. *)
Lemma sorted_empty_first (l : list string) :
  StronglySorted String_as_OT.lt l -> In "" l ->
  exists r, l = "" :: r /\ Forall (fun c => c <> "") r.
Proof.
  intros S Hin. destruct S as [|x l S F]; [destruct Hin|].
  assert (x = "") as ->.
  { destruct Hin as [H|H]; [exact H|].
    rewrite Forall_forall in F. specialize (F _ H).
    destruct x; [reflexivity | discriminate F]. }
  exists l. split; [reflexivity|].
  eapply Forall_impl; [|exact F]. intros c Hc ->. exact (lt_irrefl _ Hc).
Qed.

Lemma object_classes_In (self : TMXConverter.t) (c : string) :
  In c (_object_classes self)
  <-> exists layer, In layer (_objects self) /\ In c (keys layer).
Proof.
  unfold _object_classes. rewrite sorted_set_In, in_flat_map. reflexivity.
Qed.

Lemma nth_error_enumerate_from {A : Type} (l : list A) (k : Z) (i : nat) :
  nth_error (enumerate_from k l) i
  = option_map (fun x => (k + Z.of_nat i, x)) (nth_error l i).
Proof.
  revert k i. induction l as [|x l IH]; intros k [|i]; cbn [enumerate_from nth_error option_map];
    try reflexivity.
  - now rewrite Z.add_0_r.
  - rewrite IH. destruct (nth_error l i); cbn; [|reflexivity].
    do 2 f_equal. lia.
Qed.

(** C4, as the spec states it, fails: a map without object layer has an
    empty class set, where ordinal 0 is not "". *)
Lemma no_layer_no_classless_ordinal :
  _objects bare_map = [] /\
  _object_classes bare_map = [] /\
  nth_error (_object_classes bare_map) 0 <> Some "".
Proof. repeat split. discriminate. Qed.

(** C4, amended. For every map whose class set holds "" (some object layer
    has the key ""), the class set is the strictly sorted list of the keys
    of all the object layers, its ordinal 0 is "", the class enumeration is
    the list of the entries [c=i] for the ordinals [i] from 1 on, in order,
    and so every real class of the map is in the enumeration with its
    ordinal, which lies in [1, N-1]. *)
Theorem class_enumeration (self : TMXConverter.t)
    (classless : In "" (_object_classes self)) :
  let classes := _object_classes self in
  let enum := _object_classes_enum self in
  StronglySorted String_as_OT.lt classes /\
  (forall c, In c classes
             <-> exists layer, In layer (_objects self) /\ In c (keys layer)) /\
  nth_error classes 0 = Some "" /\
  enum = map (fun i_and_class : Z * string =>
                snd i_and_class +++ "=" +++ str (fst i_and_class))
             (enumerate_from 1 (tl classes)) /\
  (forall i c, nth_error classes (S i) = Some c ->
     c <> "" /\
     nth_error enum i = Some (c +++ "=" +++ str (Z.of_nat (S i)))) /\
  (forall c layer, In layer (_objects self) -> In c (keys layer) -> c <> "" ->
     exists i, (1 <= i < List.length classes)%nat /\
               nth_error classes i = Some c /\
               In (c +++ "=" +++ str (Z.of_nat i)) enum).
Proof.
  intros classes enum.
  assert (Sc : StronglySorted String_as_OT.lt classes)
    by apply sorted_set_sorted.
  destruct (sorted_empty_first classes Sc classless) as (r & E & R).
  assert (En : enum = map (fun i_and_class : Z * string =>
                snd i_and_class +++ "=" +++ str (fst i_and_class))
             (enumerate_from 1 (tl classes))).
  { unfold enum, _object_classes_enum. fold classes. rewrite E. reflexivity. }
  assert (Nth : forall i c, nth_error classes (S i) = Some c ->
     c <> "" /\
     nth_error enum i = Some (c +++ "=" +++ str (Z.of_nat (S i)))).
  { intros i c H. rewrite E in H. cbn in H. split.
    - rewrite Forall_forall in R. apply R. eapply nth_error_In, H.
    - rewrite En, E. cbn [tl]. rewrite nth_error_map, nth_error_enumerate_from, H.
      cbn [option_map fst snd].
      now replace (1 + Z.of_nat i) with (Z.of_nat (S i)) by lia. }
  split; [exact Sc|].
  split; [apply object_classes_In|].
  split; [now rewrite E|].
  split; [exact En|].
  split; [exact Nth|].
  - intros c layer Hl Hc Hne.
    assert (Hin : In c classes) by (apply object_classes_In; eauto).
    apply In_nth_error in Hin as [i Hi].
    destruct i as [|i]; [rewrite E in Hi; cbn in Hi; congruence|].
    exists (S i). split; [|split].
    + split; [lia|]. apply nth_error_Some. fold classes. congruence.
    + exact Hi.
    + eapply nth_error_In. now apply Nth.
Qed.

Lemma class_enumeration_witness :
  In "" (_object_classes enemy_map) /\
  nth_error (_object_classes enemy_map) 0 = Some "" /\
  _object_classes_enum enemy_map = ["Enemy=1"].
Proof.
  assert (H : In "" (_object_classes enemy_map)) by (left; reflexivity).
  split; [exact H|].
  split; [exact (proj1 (proj2 (proj2 (class_enumeration enemy_map H)))) |].
  reflexivity.
Defined.

(** ** The span table *)

Lemma len_app {A : Type} (l l' : list A) : len (l ++ l') = len l + len l'.
Proof. unfold len. rewrite length_app. lia. Qed.

Lemma len_nonneg {A : Type} (l : list A) : 0 <= len l.
Proof. unfold len. lia. Qed.

Lemma get_absent {V : Type} (d : dict V) (k : string) :
  ~ In k (keys d) -> get d k = None.
Proof.
  induction d as [|[k' v] d IH]; cbn; [reflexivity|].
  intros H. destruct (String.eqb_spec k' k) as [->|N].
  - exfalso. apply H. now left.
  - apply IH. intros Hin. apply H. now right.
Qed.

Lemma class_length_absent (layer : ObjectLayer) (c : string) :
  ~ In c (keys layer) -> class_length layer c = 0.
Proof. intros H. unfold class_length. now rewrite get_absent. Qed.

Lemma class_length_nonneg (layer : ObjectLayer) (c : string) :
  0 <= class_length layer c.
Proof.
  unfold class_length. destruct (get layer c); [apply len_nonneg | lia].
Qed.

(** What the inner loop of [_object_spans] computes. *)
Lemma layer_index_lengths_spec (layer : ObjectLayer)
    (object_classes : list string) (index : Z) :
  map snd (fst (layer_index_lengths layer object_classes index))
  = map (class_length layer) object_classes /\
  contiguous_from index
    (fst (layer_index_lengths layer object_classes index)) /\
  snd (layer_index_lengths layer object_classes index)
  = index + row_total (fst (layer_index_lengths layer object_classes index)).
Proof.
  revert index. induction object_classes as [|c cs IH]; intros index.
  - cbn. repeat split. lia.
  - cbn [layer_index_lengths].
    specialize (IH (index + class_length layer c)).
    destruct (layer_index_lengths layer cs (index + class_length layer c))
      as [row index'].
    cbn [fst snd] in *. destruct IH as (L & C & T).
    unfold row_total in *. cbn [map fold_right fst snd contiguous_from].
    split; [now rewrite L|].
    split; [|lia].
    split; [reflexivity|]. split; [apply class_length_nonneg | exact C].
Qed.

(** Adding an item under a new key adds its length to the total of the
    row, once, when the key is a class of the table. *)
Lemma total_with_item (k : string) (v : list MapObject.t) (r : ObjectLayer)
    (cs : list string) :
  NoDup cs -> get r k = None ->
  fold_right Z.add 0 (map (class_length ((k, v) :: r)) cs)
  = (if in_dec string_dec k cs then len v else 0)
    + fold_right Z.add 0 (map (class_length r) cs).
Proof.
  intros N G. induction N as [|c cs Hc N IH]; [reflexivity|].
  cbn [map fold_right]. rewrite IH.
  unfold class_length at 1. cbn [get].
  destruct (String.eqb_spec k c) as [->|Hk].
  - destruct (in_dec string_dec c (c :: cs)) as [_|F]; [|exfalso; apply F; now left].
    destruct (in_dec string_dec c cs) as [F|_]; [contradiction|].
    unfold class_length. rewrite G. lia.
  - fold (class_length r c).
    destruct (in_dec string_dec k (c :: cs)) as [I|F];
      destruct (in_dec string_dec k cs) as [I'|F']; try lia.
    + exfalso. destruct I as [E|I]; [congruence | contradiction].
    + exfalso. apply F. now right.
Qed.

(** The lengths of a row add up to the number of objects of its layer. *)
Lemma total_of_layer (layer : ObjectLayer) (cs : list string) :
  NoDup cs -> NoDup (keys layer) -> incl (keys layer) cs ->
  fold_right Z.add 0 (map (class_length layer) cs)
  = len (layer_objects layer).
Proof.
  intros N. induction layer as [|[k v] r IH]; intros D I.
  - cbn. induction cs as [|c cs IHc]; [reflexivity|].
    cbn [map fold_right]. inversion N; subst.
    rewrite IHc by (assumption || (intros x []) ). reflexivity.
  - cbn in D. inversion D as [|? ? Hk D']; subst.
    rewrite total_with_item by (assumption || now apply get_absent).
    destruct (in_dec string_dec k cs) as [_|F];
      [|exfalso; apply F, I; now left].
    rewrite IH; [|assumption|intros x Hx; apply I; now right].
    unfold layer_objects, items. cbn [flat_map snd]. now rewrite len_app.
Qed.

(** What the outer loop of [_object_spans] computes. *)
Lemma index_lengths_spec (cs : list string) (N : NoDup cs)
    (layers : list ObjectLayer) :
  Forall (fun layer : ObjectLayer =>
            NoDup (keys layer) /\ incl (keys layer) cs) layers ->
  forall (index : Z) (n : nat) (layer : ObjectLayer),
  nth_error layers n = Some layer ->
  exists row,
    nth_error (index_lengths layers cs index) n = Some row /\
    map snd row = map (class_length layer) cs /\
    contiguous_from
      (index + len (flat_map layer_objects (firstn n layers))) row /\
    row_total row = len (layer_objects layer).
Proof.
  induction 1 as [|l layers [D I] F IH]; intros index n layer H.
  - destruct n; discriminate.
  - cbn [index_lengths].
    destruct (layer_index_lengths_spec l cs index) as (L & C & T).
    destruct (layer_index_lengths l cs index) as [row index'].
    cbn [fst snd] in *.
    assert (R : row_total row = len (layer_objects l)).
    { unfold row_total. rewrite L. now apply total_of_layer. }
    destruct n as [|n].
    + injection H as <-. exists row. cbn [nth_error firstn flat_map].
      change (len []) with 0. rewrite Z.add_0_r. auto.
    + cbn [nth_error] in H. destruct (IH index' n layer H) as (row' & H1 & H2 & H3 & H4).
      exists row'. cbn [nth_error firstn flat_map].
      rewrite len_app. subst index'. rewrite R in H3.
      rewrite Z.add_assoc. auto.
Qed.

Lemma index_lengths_length (layers : list ObjectLayer) (cs : list string)
    (index : Z) :
  List.length (index_lengths layers cs index) = List.length layers.
Proof.
  revert index. induction layers as [|l layers IH]; intros index;
    [reflexivity|].
  cbn [index_lengths]. destruct (layer_index_lengths l cs index).
  cbn. now rewrite IH.
Qed.

Lemma all_objects_by_layer (self : TMXConverter.t) :
  _all_objects self = flat_map layer_objects (_objects self).
Proof. reflexivity. Qed.

Lemma flat_map_split {A B : Type} (f : A -> list B) (l : list A) (n : nat)
    (x : A) :
  nth_error l n = Some x ->
  flat_map f l
  = flat_map f (firstn n l) ++ f x ++ flat_map f (skipn (S n) l).
Proof.
  revert n. induction l as [|y l IH]; intros [|n] H; try discriminate.
  - injection H as ->. reflexivity.
  - cbn [nth_error] in H. cbn [flat_map firstn skipn].
    rewrite (IH n H), <- app_assoc. reflexivity.
Qed.

Lemma slice_middle {A : Type} (a b c : list A) :
  slice (a ++ b ++ c) (len a) (len a + len b) = b.
Proof.
  unfold slice, len.
  replace (Z.of_nat (List.length a) + Z.of_nat (List.length b)
           - Z.of_nat (List.length a)) with (Z.of_nat (List.length b)) by lia.
  rewrite !Nat2Z.id, skipn_app, skipn_all, Nat.sub_diag. cbn [skipn app].
  rewrite firstn_app, firstn_all, Nat.sub_diag. cbn [firstn].
  apply app_nil_r.
Qed.

Lemma dicts_in_classes (self : TMXConverter.t) :
  dicts self ->
  Forall (fun layer : ObjectLayer =>
            NoDup (keys layer) /\ incl (keys layer) (_object_classes self))
         (_objects self).
Proof.
  unfold dicts. rewrite !Forall_forall. intros D layer H.
  split; [now apply D|].
  intros c Hc. apply object_classes_In. eauto.
Qed.

(** The rows of the span table, layer by layer. *)
Lemma span_table_rows (self : TMXConverter.t) (D : dicts self)
    (n : nat) (layer : ObjectLayer) :
  nth_error (_objects self) n = Some layer ->
  exists row,
    nth_error (_object_spans self) n = Some row /\
    map snd row = map (class_length layer) (_object_classes self) /\
    contiguous_from (objects_before self n) row /\
    row_total row = len (layer_objects layer).
Proof.
  intros H.
  destruct (index_lengths_spec (_object_classes self) (sorted_set_NoDup _)
              (_objects self) (dicts_in_classes self D) 0 n layer H)
    as (row & H1 & H2 & H3 & H4).
  exists row. auto.
Qed.

(** C2. The span table has one row per object layer and, in a row, one
    entry per class of the class set, in order, whose length is the number
    of objects of the layer under that class, zero when there is none; the
    entries of a row follow one another without gap or overlap from the
    place where the layer starts in the flattened sequence, and together
    they cover exactly the objects of the layer there. The keys of a
    Python dict are distinct, which [dicts] records. *)
Theorem span_table_covers_layers (self : TMXConverter.t) (D : dicts self) :
  let spans := _object_spans self in
  let classes := _object_classes self in
  List.length spans = List.length (_objects self) /\
  forall (n : nat) (layer : ObjectLayer),
    nth_error (_objects self) n = Some layer ->
    exists row,
      nth_error spans n = Some row /\
      map snd row = map (class_length layer) classes /\
      (forall c, ~ In c (keys layer) -> class_length layer c = 0) /\
      contiguous_from (objects_before self n) row /\
      row_total row = len (layer_objects layer) /\
      slice (_all_objects self) (objects_before self n)
            (objects_before self n + row_total row)
      = layer_objects layer.
Proof.
  intros spans classes. split; [apply index_lengths_length|].
  intros n layer H.
  destruct (span_table_rows self D n layer H) as (row & H1 & H2 & H3 & H4).
  exists row. repeat split; try assumption.
  - apply class_length_absent.
  - rewrite H4, all_objects_by_layer, (flat_map_split _ _ n layer H).
    apply slice_middle.
Qed.

Lemma span_table_covers_layers_witness :
  dicts enemy_map /\
  exists row,
    nth_error (_object_spans enemy_map) 0 = Some row /\
    contiguous_from 0 row /\ row_total row = 2.
Proof.
  assert (D : dicts enemy_map).
  { repeat constructor; cbn; intuition discriminate. }
  split; [exact D|].
  destruct (proj2 (span_table_covers_layers enemy_map D) 0%nat _ eq_refl)
    as (row & H1 & _ & _ & H3 & H4 & _).
  exists row. auto.
Defined.

(** ** The range of the span values *)

Lemma contiguous_from_bounds (row : list (Z * Z)) :
  forall (start : Z) (span : Z * Z),
  contiguous_from start row -> In span row ->
  start <= fst span /\ 0 <= snd span /\
  fst span + snd span <= start + row_total row /\ 0 <= row_total row.
Proof.
  unfold row_total.
  induction row as [|s row IH]; intros start span C H; [destruct H|].
  cbn [contiguous_from] in C. destruct C as (C1 & C2 & C3).
  cbn [map fold_right].
  assert (P : 0 <= fold_right Z.add 0 (map snd row)).
  { clear - C3. revert C3. generalize (start + snd s).
    induction row as [|t row IHr]; cbn; [lia|].
    intros z (_ & T & R). specialize (IHr _ R). lia. }
  destruct H as [->|H].
  - lia.
  - specialize (IH _ _ C3 H). lia.
Qed.

Lemma objects_before_layer (self : TMXConverter.t) (n : nat)
    (layer : ObjectLayer) :
  nth_error (_objects self) n = Some layer ->
  0 <= objects_before self n /\
  objects_before self n + len (layer_objects layer)
  <= len (_all_objects self).
Proof.
  intros H. unfold objects_before.
  rewrite all_objects_by_layer, (flat_map_split _ _ n layer H), !len_app.
  pose proof (len_nonneg (flat_map layer_objects (firstn n (_objects self)))).
  pose proof (len_nonneg (flat_map layer_objects (skipn (S n) (_objects self)))).
  lia.
Qed.

(** C10, as the spec states it, fails in the direction from the
    representable spans to the count: with 65535 classless objects and one
    object of class "Enemy" the spans are (0, 65535) and (65535, 1), which
    all fit 16 bits, and the map has 65536 objects. *)
Lemma spans_fit_beyond_65535 :
  _object_spans crowded_map = [[(0, 65535); (65535, 1)]] /\
  spans_fit_uint16 (_object_spans crowded_map) /\
  len (_all_objects crowded_map) = 65536 /\
  ~ len (_all_objects crowded_map) <= 65535.
Proof.
  assert (S : _object_spans crowded_map = [[(0, 65535); (65535, 1)]]).
  { unfold _object_spans, _object_classes, crowded_map.
    cbn [_objects flat_map keys map fst app sorted_set fold_right].
    cbn [insert String_as_OT.compare index_lengths layer_index_lengths].
    unfold class_length. cbn [get String.eqb Ascii.eqb Bool.eqb].
    unfold len. rewrite repeat_length, Z2Nat.id by lia. reflexivity. }
  assert (L : len (_all_objects crowded_map) = 65536).
  { unfold _all_objects, crowded_map, items.
    cbn [_objects flat_map snd]. rewrite app_nil_r.
    unfold len. rewrite length_app, repeat_length.
    rewrite Nat2Z.inj_add, Z2Nat.id by lia. reflexivity. }
  rewrite S, L. repeat split; try lia.
  unfold spans_fit_uint16, fits_uint16.
  repeat constructor; cbn; lia.
Qed.

(** C10, amended. Every start index and every length of the span table is
    non negative, and a start plus its length is at most the number of
    objects of the flattened sequence; so every emitted span value is
    representable in 16 unsigned bits when the map has at most 65535
    objects. Nothing checks this, and the converse does not hold. *)
Theorem spans_fit_when_few_objects (self : TMXConverter.t) (D : dicts self) :
  (forall row span,
     In row (_object_spans self) -> In span row ->
     0 <= fst span /\ 0 <= snd span /\
     fst span + snd span <= len (_all_objects self)) /\
  (len (_all_objects self) <= 65535 ->
   spans_fit_uint16 (_object_spans self)).
Proof.
  assert (B : forall row span,
     In row (_object_spans self) -> In span row ->
     0 <= fst span /\ 0 <= snd span /\
     fst span + snd span <= len (_all_objects self)).
  { intros row span Hrow Hspan.
    apply In_nth_error in Hrow as [n Hn].
    assert (Hlt : (n < List.length (_objects self))%nat).
    { rewrite <- (index_lengths_length (_objects self)
                    (_object_classes self) 0).
      apply nth_error_Some. unfold _object_spans in Hn. congruence. }
    destruct (nth_error (_objects self) n) as [layer|] eqn:El;
      [|apply nth_error_None in El; lia].
    destruct (span_table_rows self D n layer El) as (row' & H1 & _ & C & T).
    assert (row' = row) as -> by congruence.
    destruct (contiguous_from_bounds _ _ _ C Hspan) as (B1 & B2 & B3 & _).
    destruct (objects_before_layer self n layer El) as [O1 O2].
    lia. }
  split; [exact B|].
  intros Hlen. unfold spans_fit_uint16, fits_uint16.
  apply Forall_forall. intros row Hrow.
  apply Forall_forall. intros span Hspan.
  specialize (B row span Hrow Hspan). lia.
Qed.

Lemma spans_fit_when_few_objects_witness :
  dicts enemy_map /\ len (_all_objects enemy_map) <= 65535 /\
  spans_fit_uint16 (_object_spans enemy_map).
Proof.
  assert (D : dicts enemy_map).
  { repeat constructor; cbn; intuition discriminate. }
  assert (L : len (_all_objects enemy_map) <= 65535) by (cbn; lia).
  split; [exact D|]. split; [exact L|].
  exact (proj2 (spans_fit_when_few_objects enemy_map D) L).
Defined.

(** ** The map without objects *)

Lemma layer_index_lengths_empty (layer : ObjectLayer) (cs : list string)
    (index : Z) :
  (forall c, class_length layer c = 0) ->
  layer_index_lengths layer cs index
  = (map (fun _ => (index, 0)) cs, index).
Proof.
  intros Z0. induction cs as [|c cs IH]; [reflexivity|].
  cbn [layer_index_lengths]. rewrite Z0, Z.add_0_r, IH. reflexivity.
Qed.

Lemma index_lengths_empty (layers : list ObjectLayer) (cs : list string)
    (index : Z) :
  Forall (fun layer => forall c, class_length layer c = 0) layers ->
  index_lengths layers cs index
  = map (fun _ => map (fun _ => (index, 0)) cs) layers.
Proof.
  induction 1 as [|l layers Z0 F IH]; [reflexivity|].
  cbn [index_lengths]. rewrite layer_index_lengths_empty by assumption.
  now rewrite IH.
Qed.

Lemma get_In {V : Type} (d : dict V) (k : string) (v : V) :
  get d k = Some v -> In (k, v) d.
Proof.
  induction d as [|[k' v'] d IH]; cbn; [discriminate|].
  destruct (String.eqb_spec k' k) as [->|N].
  - intros [= ->]. now left.
  - intros H. right. now apply IH.
Qed.

Lemma no_object_no_length (self : TMXConverter.t) :
  _all_objects self = [] ->
  Forall (fun layer => forall c, class_length layer c = 0) (_objects self).
Proof.
  rewrite all_objects_by_layer. intros E.
  apply Forall_forall. intros layer Hl c.
  unfold class_length. destruct (get layer c) as [v|] eqn:G; [|reflexivity].
  apply get_In in G.
  assert (Hv : forall o, ~ In o v).
  { intros o Ho.
    assert (In o (flat_map layer_objects (_objects self))).
    { apply in_flat_map. exists layer. split; [exact Hl|].
      apply in_flat_map. exists (c, v). auto. }
    rewrite E in H. destruct H. }
  destruct v as [|o v]; [reflexivity|]. exfalso. apply (Hv o). now left.
Qed.

(** C9. When the flattened object sequence is empty, [cpp_source] gives
    the array [_objects] the one dummy element in place of an empty
    literal, while the count [n_objects] stays 0 and every entry of the
    span table is (0, 0): no span gives access to the dummy element. *)
Theorem empty_map_gets_dummy (self : TMXConverter.t) (source : Source)
    (empty : _all_objects self = []) (returned : cpp_source self = Ok source) :
  cpp_objects source = dummy_object /\
  n_objects source = 0 /\
  Emitted._objects (emitted_program self source) = [Emitted.dummy] /\
  Forall (Forall (fun span : Z * Z => span = (0, 0))) (_object_spans self) /\
  Forall (Forall (fun span : Z * Z =>
                    Emitted.span_objects (emitted_program self source) span
                    = []))
         (Emitted._objects_spans (emitted_program self source)).
Proof.
  assert (Z0 : Forall (Forall (fun span : Z * Z => span = (0, 0)))
                 (_object_spans self)).
  { unfold _object_spans.
    rewrite index_lengths_empty by now apply no_object_no_length.
    apply Forall_forall. intros row Hrow. apply in_map_iff in Hrow as (_ & <- & _).
    apply Forall_forall. intros span Hspan.
    now apply in_map_iff in Hspan as (_ & <- & _). }
  unfold cpp_source in returned.
  destruct (TMX.dimensions_in_tiles (_tmx self)) as [w h].
  destruct (map_result _ _) as [literals|e]; [|discriminate].
  injection returned as <-. cbn [cpp_objects n_objects].
  rewrite empty. cbn [len List.length Z.of_nat Z.gtb Z.compare].
  repeat split.
  - unfold emitted_program, emitted_objects. cbn. now rewrite empty.
  - exact Z0.
  - cbn [emitted_program Emitted._objects_spans].
    eapply Forall_impl; [|exact Z0]. intros row.
    apply Forall_impl. intros span ->. reflexivity.
Qed.

Lemma empty_map_gets_dummy_witness :
  exists source,
    _all_objects deserted_map = [] /\ cpp_source deserted_map = Ok source /\
    _object_spans deserted_map = [[(0, 0)]] /\
    cpp_objects source = dummy_object /\ n_objects source = 0.
Proof.
  eexists. split; [reflexivity|]. split; [reflexivity|].
  split; [reflexivity|]. split.
  - exact (proj1 (empty_map_gets_dummy deserted_map _ eq_refl eq_refl)).
  - exact (proj1 (proj2 (empty_map_gets_dummy deserted_map _ eq_refl
                           eq_refl))).
Defined.

(** ** The tile layers *)

(** The rows, on natural numbers. *)
Lemma tiles_rows_chunks (width : Z) (tiles : list string) :
  0 < width ->
  tiles_rows width tiles
  = Ok (map (fun k => firstn (Z.to_nat width)
                             (skipn (k * Z.to_nat width) tiles))
            (seq 0 (Z.to_nat ((len tiles + width - 1) / width)))).
Proof.
  intros W. unfold tiles_rows, range0.
  replace (width =? 0) with false by (symmetry; apply Z.eqb_neq; lia).
  replace (width <? 0) with false by (symmetry; apply Z.ltb_ge; lia).
  rewrite map_map. f_equal. apply map_ext. intros k. unfold slice.
  f_equal; [f_equal; lia|]. f_equal. lia.
Qed.

Lemma chunks_concat {A : Type} (w n : nat) :
  forall l : list A,
  (List.length l <= n * w)%nat ->
  List.concat (map (fun k => firstn w (skipn (k * w) l)) (seq 0 n)) = l.
Proof.
  induction n as [|n IH]; intros l H.
  - cbn in *. symmetry. apply length_zero_iff_nil. lia.
  - cbn [seq map List.concat]. rewrite <- seq_shift, map_map.
    cbn [Nat.mul Nat.add skipn].
    rewrite (map_ext _ (fun k => firstn w (skipn (k * w) (skipn w l)))).
    + rewrite IH; [apply firstn_skipn|]. rewrite length_skipn. lia.
    + intros k. rewrite skipn_skipn. f_equal. f_equal. lia.
Qed.

Lemma rows_count (width length : Z) :
  0 < width -> 0 <= length ->
  let n := (length + width - 1) / width in
  0 <= n /\ length <= n * width /\ (n - 1) * width < length /\
  (forall height, length = width * height -> n = height).
Proof.
  intros W L n.
  pose proof (Z.div_mod (length + width - 1) width ltac:(lia)) as D.
  pose proof (Z.mod_pos_bound (length + width - 1) width W) as B.
  fold n in D.
  assert (0 <= n) by (apply Z.div_pos; lia).
  repeat split; nia.
Qed.

(** C5, as the spec states it, fails: 7 tile references in a map of 4 x 2
    tiles are not rejected; [cpp_source] returns, with a row of 4 and a row
    of 3 of them in the array of 8. *)
Lemma seven_tiles_not_rejected :
  TMX.dimensions_in_tiles (_tmx short_map) = (4, 2) /\
  len (TMX.tiles (_tmx short_map) "collisions") = 7 /\
  tiles_rows 4 (TMX.tiles (_tmx short_map) "collisions")
  = Ok [["1"; "2"; "3"; "4"]; ["5"; "6"; "7"]] /\
  exists source,
    cpp_source short_map = Ok source /\ size source = 8 /\
    tiles source
    = multiline_c_array
        [multiline_c_array ["1,2,3,4"; "5,6,7"] "    " 2] "    " 1.
Proof.
  repeat split. eexists. repeat split.
Qed.

Lemma map_result_returns {A B : Type} (f : A -> result B) (l : list A) :
  (forall x, In x l -> exists y, f x = Ok y) ->
  exists ys, map_result f l = Ok ys.
Proof.
  induction l as [|x l IH]; intros H; cbn; [eauto|].
  destruct (H x (or_introl eq_refl)) as [y ->].
  destruct IH as [ys ->]; [intros; apply H; now right|]. eauto.
Qed.

(** C5, amended. [cpp_source] does not compare the length of a tile layer
    with the width times the height of the map. When the width in tiles is
    positive it returns for every map: each tile layer, of whatever length,
    is emitted as its tile references in order, cut in rows of [width]
    references with a last row that may be shorter, into an array declared
    with width x height elements; when the length is width x height the
    rows are [height] rows of [width] references. *)
Theorem tile_layers_not_checked (self : TMXConverter.t)
    (positive : 0 < fst (TMX.dimensions_in_tiles (_tmx self))) :
  let width := fst (TMX.dimensions_in_tiles (_tmx self)) in
  let height := snd (TMX.dimensions_in_tiles (_tmx self)) in
  (exists source, cpp_source self = Ok source /\ size source = width * height)
  /\
  forall layer_tiles : list string,
  exists rows,
    tiles_rows width layer_tiles = Ok rows /\
    tiles_to_array_literal width layer_tiles
    = Ok (multiline_c_array (map (join ",") rows) "    " 2) /\
    List.concat rows = layer_tiles /\
    Forall (fun row => 0 < len row <= width) rows /\
    (len layer_tiles = width * height ->
     len rows = height /\ Forall (fun row => len row = width) rows).
Proof.
  intros width height.
  assert (R : forall layer_tiles : list string,
    exists rows,
      tiles_rows width layer_tiles = Ok rows /\
      tiles_to_array_literal width layer_tiles
      = Ok (multiline_c_array (map (join ",") rows) "    " 2) /\
      List.concat rows = layer_tiles /\
      Forall (fun row => 0 < len row <= width) rows /\
      (len layer_tiles = width * height ->
       len rows = height /\ Forall (fun row => len row = width) rows)).
  { intros layer_tiles.
    pose proof (tiles_rows_chunks width layer_tiles positive) as E.
    destruct (rows_count width (len layer_tiles) positive (len_nonneg _))
      as (N0 & N1 & N2 & N3).
    set (n := (len layer_tiles + width - 1) / width) in *.
    eexists. split; [exact E|].
    split; [unfold tiles_to_array_literal; now rewrite E|].
    split; [|split].
    - apply chunks_concat. unfold len in N1. nia.
    - apply Forall_forall. intros row Hrow.
      apply in_map_iff in Hrow as (k & <- & Hk). apply in_seq in Hk.
      unfold len in *. rewrite length_firstn, length_skipn. nia.
    - intros Hlen. specialize (N3 _ Hlen).
      split.
      + unfold len. rewrite length_map, length_seq. lia.
      + apply Forall_forall. intros row Hrow.
        apply in_map_iff in Hrow as (k & <- & Hk). apply in_seq in Hk.
        unfold len in *. rewrite length_firstn, length_skipn. nia. }
  split; [|exact R].
  unfold cpp_source. fold width height.
  destruct (TMX.dimensions_in_tiles (_tmx self)) as [w h] eqn:Ed.
  cbn [fst snd] in *. subst width height.
  destruct (map_result_returns
              (fun layer_path =>
                 tiles_to_array_literal w (TMX.tiles (_tmx self) layer_path))
              (Descriptor.tiles (_descriptor self))) as [literals ->].
  - intros layer_path _.
    destruct (R (TMX.tiles (_tmx self) layer_path)) as (rows & _ & -> & _).
    eauto.
  - eexists. split; reflexivity.
Qed.

Lemma tile_layers_not_checked_witness :
  0 < fst (TMX.dimensions_in_tiles (_tmx enemy_map)) /\
  exists source, cpp_source enemy_map = Ok source /\ size source = 4 * 2.
Proof.
  assert (W : 0 < fst (TMX.dimensions_in_tiles (_tmx enemy_map)))
    by (cbn; lia).
  split; [exact W|].
  exact (proj1 (tile_layers_not_checked enemy_map W)).
Defined.

(** ** The identities *)

Lemma identities_app (start : Z) (n m : nat) :
  identities start (n + m)
  = identities start n ++ identities (start + Z.of_nat n) m.
Proof.
  unfold identities. rewrite seq_app, map_app. f_equal.
  cbn [Nat.add]. clear. revert n. induction m as [|m IH]; intros n;
    [reflexivity|].
  cbn [seq map]. f_equal; [lia|].
  rewrite IH, <- seq_shift, map_map. apply map_ext. intros k. lia.
Qed.

Lemma identities_from_zero (n : nat) :
  identities 0 n = map Z.of_nat (seq 0 n).
Proof. unfold identities. apply map_ext. intros k. lia. Qed.

Lemma mapM_cons {A B : Type} (f : A -> M B) (x : A) (l : list A) (next : Z) :
  mapM f (x :: l) next
  = (fst (f x next) :: fst (mapM f l (snd (f x next))),
     snd (mapM f l (snd (f x next)))).
Proof.
  cbn [mapM]. unfold bind, ret.
  destruct (f x next) as [y n1]. cbn [fst snd].
  destruct (mapM f l n1) as [ys n2]. reflexivity.
Qed.

Lemma mapM_length {A B : Type} (f : A -> M B) (l : list A) (next : Z) :
  List.length (fst (mapM f l next)) = List.length l.
Proof.
  revert next. induction l as [|x l IH]; intros next; [reflexivity|].
  rewrite mapM_cons. cbn. now rewrite IH.
Qed.

(** When each step numbers its objects, so does the sequence of the
    steps. *)
Lemma mapM_numbers {A B : Type} (flat : B -> list MapObject.t)
    (f : A -> M B) (l : list A) :
  (forall x, numbers flat (f x)) -> numbers (flat_map flat) (mapM f l).
Proof.
  intros H. induction l as [|x l IH]; intros next.
  - cbn. split; [reflexivity | lia].
  - rewrite mapM_cons. cbn [fst snd flat_map].
    destruct (H x next) as [H1 H2].
    destruct (IH (snd (f x next))) as [I1 I2].
    rewrite map_app, length_app, identities_app, len_app, H1, I1, I2, H2.
    split; [|lia]. do 2 f_equal.
Qed.

Lemma MapObject_init_numbers (o : SourceObject) :
  numbers (fun map_object => [map_object]) (MapObject_init o).
Proof.
  intros next. cbn. unfold identities. cbn. split; f_equal; lia.
Qed.

Lemma flat_map_singleton {A : Type} (l : list A) :
  flat_map (fun x => [x]) l = l.
Proof. induction l; cbn; congruence. Qed.

Lemma numbers_ext {A : Type} (flat flat' : A -> list MapObject.t) (m : M A) :
  (forall a, flat a = flat' a) -> numbers flat m -> numbers flat' m.
Proof.
  intros E H next. rewrite <- !E. apply H.
Qed.

Lemma class_numbers (os : list SourceObject) (c : string) :
  numbers (fun item : string * list MapObject.t => snd item)
    (map_objects <- mapM MapObject_init os ;; ret (c, map_objects)).
Proof.
  intros next. unfold bind, ret.
  pose proof (mapM_numbers _ MapObject_init os MapObject_init_numbers next)
    as H.
  rewrite flat_map_singleton in H.
  destruct (mapM MapObject_init os next) as [objs n1]. exact H.
Qed.

Lemma TMX_objects_numbers (tmx : TMX.t) (layer_path : string) :
  numbers layer_objects (TMX_objects tmx layer_path).
Proof.
  unfold TMX_objects. apply mapM_numbers. intros c. apply class_numbers.
Qed.

Lemma TMXConverter_init_numbers (tmx : TMX.t) (name : string)
    (descriptor : Descriptor.t) :
  numbers _all_objects (TMXConverter_init tmx name descriptor).
Proof.
  intros next. unfold TMXConverter_init, bind, ret.
  pose proof (mapM_numbers _ (fun layer_path => TMX_objects tmx layer_path)
                (Descriptor.objects descriptor)
                (TMX_objects_numbers tmx) next) as H.
  destruct (mapM _ (Descriptor.objects descriptor) next) as [objects n1].
  exact H.
Qed.

(** No object of the map document is dropped. *)
Lemma count_one_class (k : string) (g : string -> nat) (cs : list string) :
  NoDup cs -> In k cs ->
  list_sum (map (fun c => if String.eqb k c then S (g c) else g c) cs)
  = S (list_sum (map g cs)).
Proof.
  assert (LS : forall a l, list_sum (a :: l) = (a + list_sum l)%nat)
    by reflexivity.
  induction 1 as [|c cs Hc N IH]; intros Hin; [destruct Hin|].
  cbn [map]. rewrite !LS.
  destruct (String.eqb_spec k c) as [->|Hk].
  - rewrite (map_ext_in
               (fun a => if String.eqb c a then S (g a) else g a) g cs).
    + reflexivity.
    + intros a Ha.
      destruct (String.eqb_spec c a) as [->|_]; [contradiction | reflexivity].
  - destruct Hin as [E|Hin]; [congruence|]. rewrite IH by assumption. lia.
Qed.

Lemma classes_partition (os : list SourceObject) (cs : list string) :
  NoDup cs -> (forall o, In o os -> In (source_class o) cs) ->
  list_sum (map (fun c => List.length (objects_of_class os c)) cs)
  = List.length os.
Proof.
  intros N. induction os as [|o os IH]; intros H.
  - clear. induction cs as [|c cs IHc]; [reflexivity | exact IHc].
  - cbn [List.length]. rewrite <- IH by (intros; apply H; now right).
    rewrite <- (count_one_class (source_class o)
                  (fun c => List.length (objects_of_class os c)) cs N)
      by (apply H; now left).
    f_equal. apply map_ext. intros c. unfold objects_of_class.
    cbn [filter]. now destruct (String.eqb (source_class o) c).
Qed.

Lemma TMX_objects_count (tmx : TMX.t) (layer_path : string) (next : Z) :
  List.length (layer_objects (fst (TMX_objects tmx layer_path next)))
  = List.length (TMX.source_objects tmx layer_path).
Proof.
  unfold TMX_objects.
  set (os := TMX.source_objects tmx layer_path).
  rewrite <- (classes_partition os (sorted_set ("" :: map source_class os))).
  - generalize (sorted_set ("" :: map source_class os)). intros cs.
    revert next. induction cs as [|c cs IH]; intros next; [reflexivity|].
    rewrite mapM_cons. unfold layer_objects, items in *.
    cbn [fst flat_map map]. rewrite length_app, IH.
    unfold bind, ret.
    pose proof (mapM_length MapObject_init (objects_of_class os c) next) as L.
    destruct (mapM MapObject_init (objects_of_class os c) next).
    cbn [fst snd] in *. rewrite L. reflexivity.
  - apply sorted_set_NoDup.
  - intros o Ho. apply sorted_set_In. right. now apply in_map.
Qed.

Lemma TMXConverter_init_count (tmx : TMX.t) (name : string)
    (descriptor : Descriptor.t) (next : Z) :
  List.length (_all_objects (fst (TMXConverter_init tmx name descriptor next)))
  = List.length (flat_map (TMX.source_objects tmx)
                          (Descriptor.objects descriptor)).
Proof.
  unfold TMXConverter_init, bind, ret.
  assert (H : forall (l : list string) (n : Z),
            List.length
              (flat_map layer_objects
                 (fst (mapM (fun layer_path => TMX_objects tmx layer_path) l n)))
            = List.length (flat_map (TMX.source_objects tmx) l)).
  { induction l as [|p l IH]; intros n; [reflexivity|].
    rewrite mapM_cons. cbn [fst flat_map].
    now rewrite !length_app, IH, TMX_objects_count. }
  specialize (H (Descriptor.objects descriptor) next).
  destruct (mapM _ (Descriptor.objects descriptor) next) as [objects n1].
  exact H.
Qed.

(** C1. Whatever the counter holds when [process] comes to a map, the
    converter that its loop constructs after the reset lists, in
    [_all_objects], objects whose [id_value] are 0, 1, ..., N - 1 in that
    order: the identity of an object is its position in the flattened
    sequence. N is the number of objects of the object layers of the map
    document, and the counter ends at N. *)
Theorem id_values_are_positions (f : MapFile) (next : Z) :
  let converter := fst (new_converter f next) in
  let flattened := _all_objects converter in
  map MapObject.id_value flattened
  = map Z.of_nat (seq 0 (List.length flattened)) /\
  (forall (i : nat) (o : MapObject.t),
     nth_error flattened i = Some o -> MapObject.id_value o = Z.of_nat i) /\
  List.length flattened
  = List.length (flat_map (TMX.source_objects (map_tmx f))
                          (Descriptor.objects (map_descriptor f))) /\
  snd (new_converter f next) = len flattened.
Proof.
  intros converter flattened.
  assert (E : new_converter f next
              = TMXConverter_init (map_tmx f) (map_basename f)
                  (map_descriptor f) 0) by reflexivity.
  destruct (TMXConverter_init_numbers (map_tmx f) (map_basename f)
              (map_descriptor f) 0) as [H1 H2].
  rewrite <- E in H1, H2. fold converter in H1, H2. fold flattened in H1, H2.
  rewrite identities_from_zero in H1.
  split; [exact H1|]. split; [|split].
  - intros i o Hi.
    apply (map_nth_error MapObject.id_value) in Hi. rewrite H1 in Hi.
    rewrite nth_error_map in Hi.
    destruct (nth_error (seq 0 (List.length flattened)) i) as [k|] eqn:Ek;
      [|discriminate].
    assert (Hlt : (i < List.length (seq 0 (List.length flattened)))%nat)
      by (apply nth_error_Some; congruence).
    rewrite length_seq in Hlt.
    apply nth_error_nth with (d := O) in Ek. rewrite seq_nth in Ek by exact Hlt.
    cbn in Hi, Ek. subst k. now injection Hi.
  - unfold flattened, converter. rewrite E. apply TMXConverter_init_count.
  - rewrite H2. lia.
Qed.

(** The converters of a run are those of [new_converter]: each map of the
    batch starts from the reset counter, whatever the maps before it
    left. *)
Lemma new_converter_independent (f : MapFile) (next next' : Z) :
  new_converter f next = new_converter f next'.
Proof. reflexivity. Qed.

(** ** The layers that the Map Source hands over *)

Lemma TMX_objects_keys (tmx : TMX.t) (layer_path : string) (next : Z) :
  keys (fst (TMX_objects tmx layer_path next))
  = sorted_set ("" :: map source_class (TMX.source_objects tmx layer_path)).
Proof.
  unfold TMX_objects.
  generalize (sorted_set
                ("" :: map source_class (TMX.source_objects tmx layer_path))).
  intros cs. revert next.
  induction cs as [|c cs IH]; intros next; [reflexivity|].
  rewrite mapM_cons. cbn [fst keys map]. unfold keys in IH. rewrite IH.
  f_equal. unfold bind, ret.
  now destruct (mapM MapObject_init _ next).
Qed.

(** The layers of a constructed converter are dicts with sorted keys, among
    them the classless key: what the properties of the span table and of
    the class enumeration ask for. *)
Lemma new_converter_layers (f : MapFile) (next : Z) :
  let converter := fst (new_converter f next) in
  dicts converter /\
  Forall (fun layer : ObjectLayer =>
            StronglySorted String_as_OT.lt (keys layer) /\ In "" (keys layer))
         (_objects converter) /\
  List.length (_objects converter)
  = List.length (Descriptor.objects (map_descriptor f)).
Proof.
  intros converter.
  assert (H : forall (l : list string) (n : Z),
            Forall (fun layer : ObjectLayer =>
                      StronglySorted String_as_OT.lt (keys layer)
                      /\ In "" (keys layer))
                   (fst (mapM (fun layer_path =>
                                 TMX_objects (map_tmx f) layer_path) l n))
            /\ List.length
                 (fst (mapM (fun layer_path =>
                               TMX_objects (map_tmx f) layer_path) l n))
               = List.length l).
  { intros l n. split; [|apply mapM_length]. revert n.
    induction l as [|p l IH]; intros n; [constructor|].
    rewrite mapM_cons. cbn [fst]. constructor; [|apply IH].
    rewrite TMX_objects_keys. split; [apply sorted_set_sorted|].
    apply sorted_set_In. now left. }
  assert (E : _objects converter
              = fst (mapM (fun layer_path =>
                             TMX_objects (map_tmx f) layer_path)
                          (Descriptor.objects (map_descriptor f)) 0)).
  { unfold converter, new_converter, TMXConverter_init, bind, ret,
      set_next_id_value.
    now destruct (mapM _ (Descriptor.objects (map_descriptor f)) 0). }
  destruct (H (Descriptor.objects (map_descriptor f)) 0) as [H1 H2].
  rewrite <- E in H1, H2.
  split; [|split; assumption].
  unfold dicts. eapply Forall_impl; [|exact H1].
  intros layer [S _]. now apply sorted_NoDup.
Qed.

(** * Further properties of the converter *)

(** ** The canvas, again *)

Lemma bg_size_below_multiples (size m : Z) :
  m mod 256 = 0 -> size <= m -> bg_size size <= m.
Proof.
  intros Hm Hle.
  pose proof (bg_size_bounds size) as B.
  pose proof (bg_size_multiple size) as Hb.
  apply Z.mod_divide in Hm; [|lia]. apply Z.mod_divide in Hb; [|lia].
  destruct Hm as [b ->]. destruct Hb as [a Ha]. rewrite Ha in *. lia.
Qed.

(** X1. [bg_size size] is the least multiple of 256 that is not below
    [size]: no multiple of 256 that can hold [size] is smaller. *)
Theorem bg_size_least (size m : Z) (multiple : m mod 256 = 0)
    (holds : size <= m) :
  bg_size size <= m.
Proof.
  pose proof (bg_size_bounds size) as B.
  pose proof (bg_size_multiple size) as Hb.
  apply Z.mod_divide in multiple; [|lia].
  apply Z.mod_divide in Hb; [|lia].
  destruct multiple as [b ->]. destruct Hb as [a Ha].
  rewrite Ha in *. lia.
Qed.

Lemma bg_size_least_witness : 300 <= 768 /\ bg_size 300 <= 768.
Proof.
  assert (H : 300 <= 768) by lia.
  split; [exact H|]. exact (bg_size_least 300 768 eq_refl H).
Defined.

(** X2. [bg_size] is monotone, and rounding a rounded size changes
    nothing: a larger map never gets a smaller background. *)
Theorem bg_size_monotone_idempotent :
  (forall a b : Z, a <= b -> bg_size a <= bg_size b) /\
  (forall a : Z, bg_size (bg_size a) = bg_size a).
Proof.
  split.
  - intros a b H. apply bg_size_below_multiples.
    + apply bg_size_multiple.
    + pose proof (bg_size_bounds b). lia.
  - intros a. unfold bg_size at 1. now rewrite bg_size_multiple.
Qed.

(** X3. The image of [regular_bg_image] has sides that are multiples of
    256 and at least those of the map; each graphics layer of the
    descriptor is composed at the left edge, at a multiple of the rounded
    height that grows with its rank, and the band it is given holds the
    map and ends within the image: the layers are stacked from the top
    without overlap, in the order of the descriptor. *)
Theorem graphics_layers_stacked (self : TMXConverter.t)
    (nonneg : 0 <= snd (TMX.dimensions_in_pixels (_tmx self))) :
  let src_width := fst (TMX.dimensions_in_pixels (_tmx self)) in
  let src_height := snd (TMX.dimensions_in_pixels (_tmx self)) in
  let graphics := Descriptor.graphics (_descriptor self) in
  let image := regular_bg_image_size self in
  fst image mod 256 = 0 /\ snd image mod 256 = 0 /\
  src_width <= fst image /\
  List.length (regular_bg_image_offsets self) = List.length graphics /\
  forall (i : nat) (layer_path : string),
    nth_error graphics i = Some layer_path ->
    exists y,
      nth_error (regular_bg_image_offsets self) i
      = Some (layer_path, (0, y)) /\
      y = Z.of_nat i * bg_size src_height /\
      0 <= y /\ src_height <= bg_size src_height /\
      y + bg_size src_height <= snd image.
Proof.
  intros src_width src_height graphics image.
  unfold image, regular_bg_image_size, regular_bg_image_offsets.
  unfold src_width, src_height in *.
  destruct (TMX.dimensions_in_pixels (_tmx self)) as [w h].
  cbn [fst snd] in *. fold graphics.
  pose proof (bg_size_bounds h) as Bh. pose proof (bg_size_bounds w) as Bw.
  split; [apply bg_size_multiple|].
  split; [rewrite Z.mul_comm; apply Z.mod_divide; [lia|];
          apply Z.divide_mul_r, Z.mod_divide; [lia | apply bg_size_multiple]|].
  split; [lia|].
  split.
  { rewrite length_map. unfold enumerate. generalize 0.
    induction graphics as [|g gs IH]; intros z; cbn; [reflexivity|].
    now rewrite IH. }
  intros i layer_path H.
  exists (Z.of_nat i * bg_size h).
  assert (Hi : (i < List.length graphics)%nat)
    by (apply nth_error_Some; congruence).
  split; [|repeat split; unfold len; try nia].
  rewrite nth_error_map. unfold enumerate.
  rewrite nth_error_enumerate_from, H. cbn [option_map fst snd].
  do 3 f_equal. lia.
Qed.

Lemma graphics_layers_stacked_witness :
  0 <= snd (TMX.dimensions_in_pixels (_tmx enemy_map)) /\
  regular_bg_image_size enemy_map = (512, 1024) /\
  exists y, nth_error (regular_bg_image_offsets enemy_map) 1
            = Some ("sky", (0, y)) /\ y = 512.
Proof.
  assert (H : 0 <= snd (TMX.dimensions_in_pixels (_tmx enemy_map)))
    by (cbn; lia).
  split; [exact H|]. split; [reflexivity|].
  destruct (proj2 (proj2 (proj2 (proj2 (graphics_layers_stacked enemy_map H))))
              1%nat "sky" eq_refl) as (y & H1 & H2 & _).
  exists y. split; [exact H1 | exact H2].
Defined.

(** ** The class set, again *)

(** A strictly increasing list is determined by its members. *)
Lemma sorted_unique (l l' : list string) :
  StronglySorted String_as_OT.lt l -> StronglySorted String_as_OT.lt l' ->
  (forall x, In x l <-> In x l') -> l = l'.
Proof.
  intros Sl. revert l'. induction Sl as [|a l Sl IH Fa]; intros l' Sl' E.
  - destruct l' as [|b l']; [reflexivity|].
    exfalso. apply (E b). now left.
  - destruct Sl' as [|b l' Sl' Fb].
    + exfalso. apply (E a). now left.
    + rewrite Forall_forall in Fa, Fb.
      assert (a = b) as <-.
      { destruct (proj1 (E a) (or_introl eq_refl)) as [Hb|Hb];
          [now symmetry|].
        destruct (proj2 (E b) (or_introl eq_refl)) as [Ha|Ha];
          [exact Ha|].
        exfalso. apply (lt_irrefl a).
        exact (lt_trans _ _ _ (Fa _ Ha) (Fb _ Hb)). }
      f_equal. apply IH; [exact Sl'|]. intros x. split; intros Hx.
      * destruct (proj1 (E x) (or_intror Hx)) as [<-|H]; [|exact H].
        exfalso. exact (lt_irrefl _ (Fa _ Hx)).
      * destruct (proj2 (E x) (or_intror Hx)) as [<-|H]; [|exact H].
        exfalso. exact (lt_irrefl _ (Fb _ Hx)).
Qed.

(** X4. The class set of a map depends on nothing but the class names that
    are keys of its object layers: two maps with the same class names have
    the same class list, so the same ordinals, whatever the order of the
    layers, the order of the items in their dicts and the objects they
    hold. *)
Theorem object_classes_canonical (a b : TMXConverter.t)
    (same_names :
       forall c,
         (exists layer, In layer (_objects a) /\ In c (keys layer))
         <-> (exists layer, In layer (_objects b) /\ In c (keys layer))) :
  _object_classes a = _object_classes b.
Proof.
  apply sorted_unique; try apply sorted_set_sorted.
  intros c. rewrite !object_classes_In. apply same_names.
Qed.

Lemma object_classes_canonical_witness :
  _objects enemy_map <> _objects shuffled_map /\
  _object_classes enemy_map = _object_classes shuffled_map.
Proof.
  split; [discriminate|].
  apply (object_classes_canonical enemy_map shuffled_map).
  intros c. split; intros (layer & Hl & Hc).
  - destruct Hl as [<-|[]].
    eexists. split; [left; reflexivity | exact Hc].
  - eexists. split; [left; reflexivity|].
    destruct Hl as [<-|[<-|[]]]; [exact Hc|].
    cbn in *. tauto.
Defined.

Lemma length_enumerate_from {A : Type} (l : list A) (k : Z) :
  List.length (enumerate_from k l) = List.length l.
Proof.
  revert k. induction l as [|x l IH]; intros k; cbn; [reflexivity|].
  now rewrite IH.
Qed.

Lemma object_classes_enum_tail (self : TMXConverter.t) :
  _object_classes_enum self
  = map (fun i_and_class : Z * string =>
           snd i_and_class +++ "=" +++ str (fst i_and_class))
        (enumerate_from 1 (tl (_object_classes self))).
Proof.
  unfold _object_classes_enum. now destruct (_object_classes self).
Qed.

(** X5. [_object_classes_enum] drops ordinal 0 whatever class is there.
    In a map that has classes and whose layers do not have the key "", the
    class at ordinal 0 is a real class, the enumeration has one entry less
    than there are real classes, and its entries are those of the classes
    at the ordinals from 1 on: the first real class gets no enumerator. *)
Theorem first_class_not_enumerated (self : TMXConverter.t)
    (no_classless : ~ In "" (_object_classes self))
    (some_class : _object_classes self <> []) :
  let classes := _object_classes self in
  let enum := _object_classes_enum self in
  (exists first, nth_error classes 0 = Some first /\ first <> "" /\
                 Forall (fun c => String_as_OT.lt first c) (tl classes)) /\
  Forall (fun c => c <> "") classes /\
  S (List.length enum) = List.length classes /\
  forall (i : nat) (entry : string),
    nth_error enum i = Some entry ->
    exists c, nth_error classes (S i) = Some c /\
              entry = c +++ "=" +++ str (Z.of_nat (S i)).
Proof.
  cbv zeta. rewrite object_classes_enum_tail.
  assert (Sc : StronglySorted String_as_OT.lt (_object_classes self))
    by apply sorted_set_sorted.
  destruct (_object_classes self) as [|first rest]; [congruence|].
  cbn [tl nth_error].
  split; [|split; [|split]].
  - exists first. split; [reflexivity|]. split.
    + intros ->. apply no_classless. now left.
    + now inversion Sc.
  - apply Forall_forall. intros c Hc ->. now apply no_classless.
  - now rewrite length_map, length_enumerate_from.
  - intros i entry H.
    rewrite nth_error_map, nth_error_enumerate_from in H.
    destruct (nth_error rest i) as [c|]; [|discriminate].
    cbn [option_map fst snd] in H. exists c. split; [reflexivity|].
    replace (1 + Z.of_nat i) with (Z.of_nat (S i)) in H by lia.
    congruence.
Qed.

Lemma first_class_not_enumerated_witness :
  ~ In "" (_object_classes enemy_only_map) /\
  _object_classes enemy_only_map = ["Enemy"] /\
  _object_classes_enum enemy_only_map = [] /\
  exists first, nth_error (_object_classes enemy_only_map) 0 = Some first
                /\ first <> "".
Proof.
  assert (H : ~ In "" (_object_classes enemy_only_map)).
  { cbn. intros [H|[]]. discriminate H. }
  assert (N : _object_classes enemy_only_map <> []) by discriminate.
  split; [exact H|]. split; [reflexivity|]. split; [reflexivity|].
  destruct (proj1 (first_class_not_enumerated enemy_only_map H N))
    as (first & H1 & H2 & _).
  exists first. split; [exact H1 | exact H2].
Defined.

(** ** The accessors, within their ranges *)

Lemma cpp_source_counts (self : TMXConverter.t) (source : Source) :
  cpp_source self = Ok source ->
  n_objects source = len (_all_objects self) /\
  n_objects_layers source = len (Descriptor.objects (_descriptor self)) /\
  n_objects_classes source = len (_object_classes self) /\
  n_tiles_layers source = len (Descriptor.tiles (_descriptor self)) /\
  size source
  = fst (TMX.dimensions_in_tiles (_tmx self))
    * snd (TMX.dimensions_in_tiles (_tmx self)).
Proof.
  unfold cpp_source.
  destruct (TMX.dimensions_in_tiles (_tmx self)) as [w h].
  destruct (map_result _ _) as [literals|e]; [|discriminate].
  intros [= <-]. repeat split.
Qed.

Lemma at_index_in_range {A : Type} (a : list A) (i : Z) :
  0 <= i < len a ->
  exists x, Emitted.at_index a i = Some x /\ nth_error a (Z.to_nat i) = Some x.
Proof.
  intros [H0 H1]. unfold Emitted.at_index.
  replace (i <? 0) with false by (symmetry; apply Z.ltb_ge; lia).
  destruct (nth_error a (Z.to_nat i)) as [x|] eqn:E; [eauto|].
  apply nth_error_None in E. unfold len in H1. lia.
Qed.

Lemma emitted_objects_of (self : TMXConverter.t) :
  _all_objects self <> [] ->
  emitted_objects self = map Emitted.object_of (_all_objects self).
Proof.
  unfold emitted_objects. destruct (_all_objects self); congruence.
Qed.

(** X6. In the emitted program, [object(id)] for an identifier of
    [0, n_objects) returns the object at position [id] of the flattened
    sequence: it does not abort, does not read outside of [_objects], and
    never returns the dummy element. *)
Theorem object_returns_flattened (self : TMXConverter.t) (source : Source)
    (returned : cpp_source self = Ok source) (id : Z)
    (in_range : 0 <= id < n_objects source) :
  exists o,
    nth_error (_all_objects self) (Z.to_nat id) = Some o /\
    Emitted.object (emitted_program self source) id
    = Emitted.Returned (Emitted.object_of o).
Proof.
  destruct (cpp_source_counts self source returned) as (N & _).
  rewrite N in in_range.
  destruct (at_index_in_range (_all_objects self) id in_range)
    as (o & _ & Ho).
  exists o. split; [exact Ho|].
  unfold Emitted.object. cbn [emitted_program Emitted.n_objects Emitted._objects].
  rewrite N. replace (id <? len (_all_objects self)) with true
    by (symmetry; apply Z.ltb_lt; lia).
  rewrite emitted_objects_of
    by (intros E; rewrite E in Ho; now destruct (Z.to_nat id)).
  unfold Emitted.at_index.
  replace (id <? 0) with false by (symmetry; apply Z.ltb_ge; lia).
  now rewrite nth_error_map, Ho.
Qed.

Lemma object_returns_flattened_witness :
  exists source,
    cpp_source enemy_map = Ok source /\ 0 <= 1 < n_objects source /\
    Emitted.object (emitted_program enemy_map source) 1
    = Emitted.Returned
        (Emitted.object_of (MapObject.mk (Some "boss") 1 "Enemy" (8, 8))).
Proof.
  eexists. split; [reflexivity|].
  assert (R : 0 <= 1 < 2) by lia. split; [exact R|].
  destruct (object_returns_flattened enemy_map _ eq_refl 1 R) as (o & Ho & E).
  injection Ho as <-. exact E.
Defined.

Lemma index_lengths_rows_length (layers : list ObjectLayer)
    (cs : list string) (index : Z) :
  Forall (fun row : list (Z * Z) => List.length row = List.length cs)
         (index_lengths layers cs index).
Proof.
  revert index. induction layers as [|l layers IH]; intros index;
    [constructor|].
  cbn [index_lengths].
  pose proof (layer_index_lengths_spec l cs index) as (L & _).
  destruct (layer_index_lengths l cs index) as [row index'].
  constructor; [|apply IH].
  cbn [fst] in L. apply (f_equal (@List.length Z)) in L.
  now rewrite !length_map in L.
Qed.

(** X7. The array [_objects_spans] is declared with as many rows as the
    descriptor has object layers and as many columns as the map has
    classes; the table that [_object_spans] computes has exactly that
    shape, in a converter that holds one layer per object layer path. *)
Theorem span_table_shape (self : TMXConverter.t) (source : Source)
    (returned : cpp_source self = Ok source)
    (layers : layers_of_descriptor self) :
  len (_object_spans self) = n_objects_layers source /\
  Forall (fun row : list (Z * Z) => len row = n_objects_classes source)
         (_object_spans self).
Proof.
  destruct (cpp_source_counts self source returned) as (_ & L & C & _).
  rewrite L, C. unfold len, _object_spans. split.
  - rewrite index_lengths_length. now rewrite layers.
  - eapply Forall_impl; [|apply index_lengths_rows_length].
    cbn beta. intros row ->. reflexivity.
Qed.

Lemma span_table_shape_witness :
  exists source,
    cpp_source enemy_map = Ok source /\ layers_of_descriptor enemy_map /\
    len (_object_spans enemy_map) = n_objects_layers source.
Proof.
  eexists. split; [reflexivity|].
  assert (L : layers_of_descriptor enemy_map) by reflexivity.
  split; [exact L|].
  exact (proj1 (span_table_shape enemy_map _ eq_refl L)).
Defined.





(** ** The spans and the classes *)

Lemma class_objects_len (layer : ObjectLayer) (c : string) :
  len (class_objects layer c) = class_length layer c.
Proof.
  unfold class_objects, class_length. now destruct (get layer c).
Qed.

Lemma class_objects_absent (layer : ObjectLayer) (c : string) :
  ~ In c (keys layer) -> class_objects layer c = [].
Proof. intros H. unfold class_objects. now rewrite get_absent. Qed.

Lemma flat_map_ext_in {A B : Type} (f g : A -> list B) (l : list A) :
  (forall x, In x l -> f x = g x) -> flat_map f l = flat_map g l.
Proof.
  induction l as [|x l IH]; intros H; [reflexivity|].
  cbn. rewrite (H x), IH; [reflexivity | | now left].
  intros y Hy. apply H. now right.
Qed.

(** A dict that iterates in the order of its keys lists its objects class
    by class, in the order of the class set. *)
Lemma sorted_layer_by_classes (cs : list string) :
  StronglySorted String_as_OT.lt cs ->
  forall layer : ObjectLayer,
  StronglySorted String_as_OT.lt (keys layer) -> incl (keys layer) cs ->
  layer_objects layer = flat_map (class_objects layer) cs.
Proof.
  induction 1 as [|c cs Sc IH Fc]; intros layer Sl I.
  - destruct layer as [|[k v] r]; [reflexivity|].
    exfalso. apply (I k). now left.
  - rewrite Forall_forall in Fc. destruct layer as [|[k v] r].
    + cbn [flat_map]. rewrite <- IH; [reflexivity | constructor |].
      intros x [].
    + cbn [keys map fst] in Sl, I. inversion Sl as [|? ? Sr Fk]; subst.
      rewrite Forall_forall in Fk. fold (keys r) in *.
      destruct (I k (or_introl eq_refl)) as [<-|Hk].
      * cbn [flat_map]. unfold class_objects at 1. cbn [get].
        rewrite String.eqb_refl.
        unfold layer_objects, items. cbn [flat_map snd]. f_equal.
        rewrite (flat_map_ext_in (class_objects ((c, v) :: r))
                   (class_objects r) cs).
        -- apply IH; [exact Sr|]. intros x Hx.
           destruct (I x (or_intror Hx)) as [<-|H]; [|exact H].
           exfalso. exact (lt_irrefl _ (Fk _ Hx)).
        -- intros x Hx. unfold class_objects. cbn [get].
           destruct (String.eqb_spec c x) as [<-|_]; [|reflexivity].
           exfalso. exact (lt_irrefl _ (Fc _ Hx)).
      * assert (Nc : ~ In c (keys ((k, v) :: r))).
        { cbn [keys map fst]. intros [->|Hc].
          - exact (lt_irrefl _ (Fc _ Hk)).
          - exact (lt_irrefl _ (lt_trans _ _ _ (Fc _ Hk) (Fk _ Hc))). }
        cbn [flat_map]. rewrite (class_objects_absent _ c Nc). cbn [app].
        apply IH; [exact Sl|]. intros x Hx.
        destruct (I x Hx) as [<-|H]; [contradiction | exact H].
Qed.

Lemma layer_row_nth (layer : ObjectLayer) (cs : list string) :
  forall (index : Z) (k : nat) (c : string),
  nth_error cs k = Some c ->
  nth_error (fst (layer_index_lengths layer cs index)) k
  = Some (index + len (flat_map (class_objects layer) (firstn k cs)),
          class_length layer c).
Proof.
  induction cs as [|c0 cs IH]; intros index k c H;
    [destruct k; discriminate|].
  cbn [layer_index_lengths].
  specialize (IH (index + class_length layer c0)).
  destruct (layer_index_lengths layer cs (index + class_length layer c0))
    as [row index'].
  cbn [fst] in *. destruct k as [|k].
  - injection H as <-. cbn. now rewrite Z.add_0_r.
  - cbn [nth_error firstn flat_map] in *. rewrite (IH k c H).
    rewrite len_app, class_objects_len. do 2 f_equal. lia.
Qed.

Lemma index_lengths_row (cs : list string) (N : NoDup cs)
    (layers : list ObjectLayer) :
  Forall (fun layer : ObjectLayer =>
            NoDup (keys layer) /\ incl (keys layer) cs) layers ->
  forall (index : Z) (n : nat) (layer : ObjectLayer),
  nth_error layers n = Some layer ->
  nth_error (index_lengths layers cs index) n
  = Some (fst (layer_index_lengths layer cs
                 (index + len (flat_map layer_objects (firstn n layers))))).
Proof.
  induction 1 as [|l layers [D I] F IH]; intros index n layer H;
    [destruct n; discriminate|].
  cbn [index_lengths].
  destruct (layer_index_lengths_spec l cs index) as (L & _ & T).
  destruct (layer_index_lengths l cs index) as [row index'] eqn:E.
  cbn [fst snd] in *. destruct n as [|n].
  - injection H as <-. cbn [nth_error firstn flat_map].
    change (len []) with 0. now rewrite Z.add_0_r, E.
  - cbn [nth_error firstn flat_map] in *. rewrite (IH index' n layer H).
    rewrite len_app. do 3 f_equal. subst index'. unfold row_total.
    rewrite L, (total_of_layer l cs N D I). lia.
Qed.

(** X9. When the dicts of the layers iterate in the sorted order of their
    keys, the entry of the span table for a layer and a class ordinal
    delimits, in the flattened sequence, exactly the objects that the layer
    holds under the class of that ordinal, in their order; its length is
    their number. *)
Theorem class_span_holds_class (self : TMXConverter.t)
    (sorted : sorted_dicts self)
    (n : nat) (layer : ObjectLayer) (k : nat) (c : string)
    (nth_layer : nth_error (_objects self) n = Some layer)
    (nth_class : nth_error (_object_classes self) k = Some c) :
  exists row span,
    nth_error (_object_spans self) n = Some row /\
    nth_error row k = Some span /\
    snd span = len (class_objects layer c) /\
    slice (_all_objects self) (fst span) (fst span + snd span)
    = class_objects layer c.
Proof.
  assert (D : dicts self).
  { unfold dicts. eapply Forall_impl; [|exact sorted].
    intros l. apply sorted_NoDup. }
  pose proof (dicts_in_classes self D) as DI.
  pose proof (sorted_set_NoDup
                (flat_map (fun l : ObjectLayer => keys l) (_objects self)))
    as N.
  fold (_object_classes self) in N.
  pose proof (index_lengths_row _ N _ DI 0 n layer nth_layer) as Er.
  fold (_object_spans self) in Er.
  pose proof (layer_row_nth layer (_object_classes self)
                (0 + len (flat_map layer_objects (firstn n (_objects self))))
                k c nth_class) as Es.
  eexists. eexists. split; [exact Er|]. split; [exact Es|].
  cbn [fst snd]. split; [now rewrite class_objects_len|].
  assert (Sl : StronglySorted String_as_OT.lt (keys layer)).
  { unfold sorted_dicts in sorted. rewrite Forall_forall in sorted.
    apply sorted. eapply nth_error_In, nth_layer. }
  assert (Il : incl (keys layer) (_object_classes self)).
  { rewrite Forall_forall in DI. apply DI. eapply nth_error_In, nth_layer. }
  rewrite all_objects_by_layer, (flat_map_split _ _ n layer nth_layer).
  rewrite (sorted_layer_by_classes (_object_classes self)
             (sorted_set_sorted _) layer Sl Il).
  rewrite (flat_map_split (class_objects layer) _ k c nth_class).
  rewrite <- class_objects_len, Z.add_0_l, <- len_app.
  rewrite <- !app_assoc.
  rewrite (app_assoc (flat_map layer_objects (firstn n (_objects self)))).
  apply slice_middle.
Qed.

Lemma class_span_holds_class_witness :
  sorted_dicts enemy_map /\
  exists row span,
    nth_error (_object_spans enemy_map) 0 = Some row /\
    nth_error row 1 = Some span /\
    slice (_all_objects enemy_map) (fst span) (fst span + snd span)
    = [MapObject.mk (Some "boss") 1 "Enemy" (8, 8)].
Proof.
  assert (S : sorted_dicts enemy_map).
  { repeat constructor. }
  split; [exact S|].
  destruct (class_span_holds_class enemy_map S 0 _ 1 "Enemy" eq_refl eq_refl)
    as (row & span & H1 & H2 & _ & H3).
  exists row, span. split; [exact H1|]. split; [exact H2 | exact H3].
Defined.

(** Without the sorted order the spans and the classes part: in the
    second layer of [shuffled_map], whose dict lists "Enemy" first, the
    span of the classless ordinal delimits the object of class "Enemy". *)
Example shuffled_map_spans :
  _object_spans shuffled_map = [[(0, 1); (1, 1)]; [(2, 1); (3, 1)]] /\
  slice (_all_objects shuffled_map) 2 (2 + 1)
  = [MapObject.mk (Some "boss") 2 "Enemy" (8, 8)].
Proof. split; reflexivity. Qed.

(** ** The tile layers, again *)

(** X10. For a positive width the rows of a tile layer are row-major: the
    tile reference at column [c] of row [r] is the one at index
    [r * width + c] of the layer, and there is none at one place exactly
    when there is none at the other; every row but the last holds [width]
    references, and the rows are as many as the length divided by the
    width, rounded up. *)
Theorem tiles_rows_row_major (width : Z) (tiles : list string)
    (positive : 0 < width) :
  exists rows,
    tiles_rows width tiles = Ok rows /\
    (forall r c : nat,
       (c < Z.to_nat width)%nat ->
       nth_error (nth r rows []) c
       = nth_error tiles (r * Z.to_nat width + c)) /\
    (forall r : nat,
       (S r < List.length rows)%nat ->
       List.length (nth r rows []) = Z.to_nat width) /\
    len rows = (len tiles + width - 1) / width.
Proof.
  pose proof (tiles_rows_chunks width tiles positive) as E.
  destruct (rows_count width (len tiles) positive (len_nonneg _))
    as (N0 & N1 & N2 & _).
  set (n := (len tiles + width - 1) / width) in *.
  set (f := fun k : nat =>
              firstn (Z.to_nat width) (skipn (k * Z.to_nat width) tiles))
    in *.
  assert (Hnth : forall r : nat,
            (r < Z.to_nat n)%nat -> nth r (map f (seq 0 (Z.to_nat n))) [] = f r).
  { intros r Hr. apply nth_error_nth.
    rewrite nth_error_map, nth_error_seq.
    replace (r <? Z.to_nat n)%nat with true
      by (symmetry; now apply Nat.ltb_lt).
    reflexivity. }
  eexists. split; [exact E|]. split; [|split].
  - intros r c Hc. destruct (Nat.lt_ge_cases r (Z.to_nat n)) as [Hr|Hr].
    + rewrite Hnth by exact Hr. unfold f.
      rewrite nth_error_firstn, nth_error_skipn.
      replace (c <? Z.to_nat width)%nat with true
        by (symmetry; now apply Nat.ltb_lt).
      reflexivity.
    + rewrite nth_overflow by (rewrite length_map, length_seq; exact Hr).
      symmetry. destruct c; apply nth_error_None; unfold len in N1; nia.
  - intros r Hr. rewrite length_map, length_seq in Hr.
    rewrite Hnth by lia. unfold f.
    rewrite length_firstn, length_skipn. unfold len in N2. nia.
  - unfold len. rewrite length_map, length_seq. lia.
Qed.

Lemma tiles_rows_row_major_witness :
  0 < 4 /\
  exists rows,
    tiles_rows 4 ["1"; "2"; "3"; "4"; "5"; "6"; "7"] = Ok rows /\
    nth_error (nth 1 rows []) 2 = Some "7" /\
    nth_error (nth 1 rows []) 3 = None.
Proof.
  assert (W : 0 < 4) by lia. split; [exact W|].
  destruct (tiles_rows_row_major 4 ["1"; "2"; "3"; "4"; "5"; "6"; "7"] W)
    as (rows & E & H & _).
  exists rows. split; [exact E|]. split.
  - exact (H 1%nat 2%nat ltac:(cbn; lia)).
  - exact (H 1%nat 3%nat ltac:(cbn; lia)).
Defined.

Lemma tiles_to_array_literal_returns (width : Z) (tiles : list string) :
  width <> 0 -> exists literal, tiles_to_array_literal width tiles = Ok literal.
Proof.
  intros H. unfold tiles_to_array_literal, tiles_rows, range0.
  replace (width =? 0) with false by (symmetry; now apply Z.eqb_neq).
  destruct (width <? 0); eauto.
Qed.

Lemma map_result_raises {A B : Type} (f : A -> result B) (e : exn)
    (l : list A) :
  (forall x, f x = Error e) -> l <> [] -> map_result f l = Error e.
Proof.
  intros H N. destruct l as [|x l]; [congruence|]. cbn. now rewrite H.
Qed.

(** X11. [cpp_source] raises exactly when the map is 0 tiles wide and the
    descriptor lists a tile layer; what is raised is then the ValueError of
    [range] for its zero step. For every other map it returns. *)
Theorem cpp_source_raises_on_zero_width (self : TMXConverter.t) :
  ((exists e, cpp_source self = Error e)
   <-> fst (TMX.dimensions_in_tiles (_tmx self)) = 0
       /\ Descriptor.tiles (_descriptor self) <> []) /\
  (forall e, cpp_source self = Error e ->
             e = ValueError "range() arg 3 must not be zero") /\
  ((exists source, cpp_source self = Ok source)
   <-> fst (TMX.dimensions_in_tiles (_tmx self)) <> 0
       \/ Descriptor.tiles (_descriptor self) = []).
Proof.
  unfold cpp_source.
  destruct (TMX.dimensions_in_tiles (_tmx self)) as [w h]. cbn [fst].
  set (f := fun layer_path =>
              tiles_to_array_literal w (TMX.tiles (_tmx self) layer_path)).
  destruct (Z.eq_dec w 0) as [->|Hw].
  - destruct (Descriptor.tiles (_descriptor self)) as [|path paths] eqn:Ep.
    + cbn [map_result]. split; [|split].
      * split; [intros [e H]; discriminate | intros [_ H]; congruence].
      * intros e H. discriminate.
      * split; [now right | eauto].
    + rewrite (map_result_raises f
                 (ValueError "range() arg 3 must not be zero"))
        by (reflexivity || discriminate).
      split; [|split].
      * split; [intros _; split; [reflexivity | discriminate] | eauto].
      * intros e [= <-]. reflexivity.
      * split; [intros [s H]; discriminate | intros [H|H]; congruence].
  - destruct (map_result_returns f (Descriptor.tiles (_descriptor self)))
      as [literals ->].
    { intros x _. now apply tiles_to_array_literal_returns. }
    split; [|split].
    + split; [intros [e H]; discriminate | intros [H _]; congruence].
    + intros e H. discriminate.
    + split; [now left | eauto].
Qed.

Example zero_width_map_raises :
  cpp_source zero_width_map
  = Error (ValueError "range() arg 3 must not be zero").
Proof. reflexivity. Qed.

(** ** The batch *)

Lemma process_cons (f : MapFile) (rest : list MapFile) (next : Z) :
  fst (process (f :: rest) next)
  = if map_up_to_date f
    then fst (process rest (snd (new_converter f next)))
    else match export (fst (new_converter f next)) with
         | Error e => ([], Some e)
         | Ok written =>
             (written
                :: fst (fst (process rest (snd (new_converter f next)))),
              snd (fst (process rest (snd (new_converter f next)))))
         end.
Proof.
  cbn [process]. unfold bind at 1.
  destruct (new_converter f next) as [converter n1]. cbn [fst snd].
  destruct (map_up_to_date f); [reflexivity|].
  destruct (export converter) as [written|e]; [|reflexivity].
  unfold bind, ret. now destruct (process rest n1).
Qed.

Lemma process_any_counter (maps : list MapFile) (next next' : Z) :
  fst (process maps next) = fst (process maps next').
Proof.
  destruct maps as [|f rest]; [reflexivity|].
  rewrite !process_cons. reflexivity.
Qed.

(** X12. A run of [process] over maps followed by other maps writes what
    a run over the first ones writes and then, unless an exception ended
    it, what a run of its own over the others writes, with their exception
    if any: a map gets the artifacts that it gets when it is processed
    alone, whatever the counter held, and after an exception no further
    map is converted. *)
Theorem process_app (before after : list MapFile) (next : Z) :
  fst (process (before ++ after) next)
  = match snd (fst (process before next)) with
    | Some e => fst (process before next)
    | None =>
        (fst (fst (process before next)) ++ fst (fst (process after 0)),
         snd (fst (process after 0)))
    end.
Proof.
  revert next. induction before as [|f before IH]; intros next.
  - cbn [app process ret fst snd].
    rewrite (process_any_counter after next 0).
    now destruct (fst (process after 0)).
  - cbn [app]. rewrite !process_cons.
    destruct (map_up_to_date f); [apply IH|].
    destruct (export (fst (new_converter f next))) as [written|e];
      [|reflexivity].
    rewrite IH.
    destruct (fst (process before (snd (new_converter f next))))
      as [artifacts [e|]]; reflexivity.
Qed.

(** X13. [process] writes the artifacts of no map that is up to date: what
    it writes is at most one set of artifacts per map that is not, exactly
    one when no exception ends the run; and a run over maps that are all up
    to date writes nothing and raises nothing, whatever the maps hold. *)
Theorem process_skips_up_to_date (maps : list MapFile) (next : Z) :
  let stale := filter (fun f => negb (map_up_to_date f)) maps in
  let run := fst (process maps next) in
  (List.length (fst run) <= List.length stale)%nat /\
  (snd run = None -> List.length (fst run) = List.length stale) /\
  (stale = [] -> run = ([], None)).
Proof.
  cbv zeta. revert next. induction maps as [|f maps IH]; intros next.
  - cbn. repeat split; lia.
  - rewrite process_cons. cbn [filter].
    destruct (map_up_to_date f); cbn [negb]; [apply IH|].
    destruct (export (fst (new_converter f next))) as [written|e];
      cbn [fst snd List.length].
    + destruct (IH (snd (new_converter f next))) as (H1 & H2 & _).
      split; [lia|]. split; [|discriminate].
      intros H. now rewrite H2.
    + split; [lia|]. split; discriminate.
Qed.

Example flat_file_ends_the_run :
  fst (process [enemy_file; flat_file; enemy_file] 0)
  = (fst (fst (process [enemy_file] 0)),
     Some (ValueError "range() arg 3 must not be zero")).
Proof. reflexivity. Qed.

(** ** Named objects *)

Lemma new_converter_positions (f : MapFile) (next : Z) (i : nat)
    (o : MapObject.t) :
  nth_error (_all_objects (fst (new_converter f next))) i = Some o ->
  MapObject.id_value o = Z.of_nat i.
Proof.
  intros Hi.
  assert (E : new_converter f next
              = TMXConverter_init (map_tmx f) (map_basename f)
                  (map_descriptor f) 0) by reflexivity.
  destruct (TMXConverter_init_numbers (map_tmx f) (map_basename f)
              (map_descriptor f) 0) as [H1 _].
  rewrite <- E, identities_from_zero in H1.
  apply (map_nth_error MapObject.id_value) in Hi. rewrite H1 in Hi.
  rewrite nth_error_map, nth_error_seq in Hi.
  destruct (i <? _)%nat; [|discriminate].
  cbn in Hi. congruence.
Qed.

(** X14. In the map that [process] converts, a named object gets an
    enumerator of [object_id] whose value is the position of the object in
    the flattened sequence, and [object] called with that value returns
    this very object: the name of an object leads to it by one array
    access. *)
Theorem named_object_found_by_id (f : MapFile) (next : Z) (source : Source)
    (i : nat) (o : MapObject.t) (name : string)
    (returned : cpp_source (fst (new_converter f next)) = Ok source)
    (at_i : nth_error (_all_objects (fst (new_converter f next))) i = Some o)
    (named : MapObject.id o = Some name) :
  let converter := fst (new_converter f next) in
  In (name +++ "=" +++ str (Z.of_nat i)) (_object_ids_enum converter) /\
  Emitted.object (emitted_program converter source) (Z.of_nat i)
  = Emitted.Returned (Emitted.object_of o).
Proof.
  intros converter. fold converter in returned, at_i.
  pose proof (new_converter_positions f next i o at_i) as P.
  split.
  - unfold _object_ids_enum. apply in_flat_map. exists o.
    split; [eapply nth_error_In, at_i|].
    rewrite named, P. now left.
  - destruct (cpp_source_counts converter source returned) as (N & _).
    assert (Hi : (i < List.length (_all_objects converter))%nat)
      by (apply nth_error_Some; congruence).
    unfold Emitted.object.
    cbn [emitted_program Emitted.n_objects Emitted._objects].
    rewrite N. unfold len.
    replace (Z.of_nat i <? Z.of_nat (List.length (_all_objects converter)))
      with true by (symmetry; apply Z.ltb_lt; lia).
    rewrite emitted_objects_of
      by (intros E; rewrite E in at_i; now destruct i).
    unfold Emitted.at_index.
    replace (Z.of_nat i <? 0) with false by (symmetry; apply Z.ltb_ge; lia).
    now rewrite Nat2Z.id, nth_error_map, at_i.
Qed.

Lemma named_object_found_by_id_witness :
  exists source,
    cpp_source (fst (new_converter enemy_file 7)) = Ok source /\
    In "boss=1" (_object_ids_enum (fst (new_converter enemy_file 7))) /\
    Emitted.object (emitted_program (fst (new_converter enemy_file 7)) source)
                   1
    = Emitted.Returned
        (Emitted.object_of (MapObject.mk (Some "boss") 1 "Enemy" (8, 8))).
Proof.
  eexists. split; [reflexivity|].
  exact (named_object_found_by_id enemy_file 7 _ 1
           (MapObject.mk (Some "boss") 1 "Enemy" (8, 8)) "boss"
           eq_refl eq_refl eq_refl).
Defined.

(** ** The array literals *)

Lemma append_assoc (a b c : string) : (a +++ b) +++ c = a +++ b +++ c.
Proof. induction a as [|x a IH]; cbn; [reflexivity | now rewrite IH]. Qed.

Lemma append_empty (a : string) : a +++ "" = a.
Proof. induction a as [|x a IH]; cbn; [reflexivity | now rewrite IH]. Qed.

Lemma compact_append (a b : string) :
  compact (a +++ b) = compact a +++ compact b.
Proof.
  induction a as [|x a IH]; cbn [String.append compact]; [reflexivity|].
  destruct (Ascii.eqb x " " || Ascii.eqb x "010")%bool; cbn; now rewrite IH.
Qed.

Lemma compact_times (indentation : string) (n : nat) :
  compact indentation = "" -> compact (times indentation n) = "".
Proof.
  intros H. induction n as [|n IH]; [reflexivity|].
  cbn [times]. now rewrite compact_append, H, IH.
Qed.

Lemma compact_join (sep sep' : string) (l : list string) :
  compact sep = sep' -> compact (join sep l) = join sep' (map compact l).
Proof.
  intros H. induction l as [|x l IH]; [reflexivity|].
  destruct l as [|y l]; [reflexivity|].
  change (join sep (x :: y :: l)) with (x +++ sep +++ join sep (y :: l)).
  rewrite !compact_append, IH, H. reflexivity.
Qed.

Lemma map_compact_fixed (l : list string) :
  Forall (fun x => compact x = x) l -> map compact l = l.
Proof.
  induction 1 as [|x l H F IH]; [reflexivity|]. cbn. now rewrite H, IH.
Qed.

Lemma compact_multiline (l : list string) (indentation : string)
    (depth : nat) :
  compact indentation = "" ->
  compact (multiline_c_array l indentation depth)
  = inline_c_array (map compact l).
Proof.
  intros H. unfold multiline_c_array, inline_c_array.
  rewrite !compact_append.
  rewrite (compact_join _ ","); [|now rewrite !compact_append, compact_times].
  rewrite !compact_times by exact H. reflexivity.
Qed.

(** X15. The two array literals differ by white space only: when the
    indentation is made of spaces and the elements hold no space and no
    line end, [multiline_c_array] without its spaces and line ends is
    [inline_c_array] of the same elements, which holds none. *)
Theorem multiline_is_inline_spread (l : list string) (indentation : string)
    (depth : nat)
    (blank : compact indentation = "")
    (dense : Forall (fun x => compact x = x) l) :
  compact (multiline_c_array l indentation depth) = inline_c_array l /\
  compact (inline_c_array l) = inline_c_array l.
Proof.
  split.
  - rewrite compact_multiline by exact blank.
    now rewrite map_compact_fixed.
  - unfold inline_c_array. rewrite !compact_append.
    rewrite (compact_join "," ",") by reflexivity.
    now rewrite map_compact_fixed.
Qed.

Lemma multiline_is_inline_spread_witness :
  compact "    " = "" /\
  compact (multiline_c_array ["1"; "22"; "3"] "    " 2) = "{1,22,3}".
Proof.
  assert (B : compact "    " = "") by reflexivity.
  split; [exact B|].
  exact (proj1 (multiline_is_inline_spread ["1"; "22"; "3"] "    " 2 B
                  ltac:(repeat constructor))).
Defined.

Lemma join_app (sep : string) (l l' : list string) :
  l <> [] -> l' <> [] ->
  join sep (l ++ l') = join sep l +++ sep +++ join sep l'.
Proof.
  intros Hl Hl'. induction l as [|x l IH]; [congruence|].
  destruct l as [|y l].
  - destruct l' as [|z l']; [congruence | reflexivity].
  - change (join sep ((x :: y :: l) ++ l'))
      with (x +++ sep +++ join sep ((y :: l) ++ l')).
    rewrite IH by discriminate.
    change (join sep (x :: y :: l)) with (x +++ sep +++ join sep (y :: l)).
    now rewrite !append_assoc.
Qed.

Lemma join_rows (sep : string) (rows : list (list string)) :
  Forall (fun row => row <> []) rows ->
  join sep (map (join sep) rows) = join sep (List.concat rows).
Proof.
  induction 1 as [|row rows H F IH]; [reflexivity|].
  destruct rows as [|row' rows].
  - cbn. now rewrite app_nil_r.
  - change (List.concat (row :: row' :: rows))
      with (row ++ List.concat (row' :: rows)).
    rewrite join_app.
    + rewrite <- IH. reflexivity.
    + exact H.
    + inversion F as [|? ? H' _]; subst. cbn [List.concat].
      destruct row'; [congruence | discriminate].
Qed.

Lemma tiles_rows_not_empty (width : Z) (tiles : list string) :
  0 < width ->
  exists rows,
    tiles_rows width tiles = Ok rows /\ List.concat rows = tiles /\
    Forall (fun row => row <> []) rows.
Proof.
  intros positive.
  pose proof (tiles_rows_chunks width tiles positive) as E.
  destruct (rows_count width (len tiles) positive (len_nonneg _))
    as (N0 & N1 & N2 & _).
  set (n := (len tiles + width - 1) / width) in *.
  eexists. split; [exact E|]. split.
  - apply chunks_concat. unfold len in N1. nia.
  - apply Forall_forall. intros row Hrow.
    apply in_map_iff in Hrow as (k & <- & Hk). apply in_seq in Hk.
    intros Hnil. apply (f_equal (@List.length string)) in Hnil.
    rewrite length_firstn, length_skipn in Hnil. unfold len in N2.
    cbn [List.length] in Hnil. nia.
Qed.

(** X16. The rows of a tile layer are for the reader only: for a positive
    width and tile references without space or line end, the literal of
    [tiles_to_array_literal] without its spaces and line ends is the flat
    literal of the tile references of the layer, in order, whatever the
    width. *)
Theorem tiles_literal_is_flat (width : Z) (tiles : list string)
    (positive : 0 < width)
    (dense : Forall (fun x => compact x = x) tiles) :
  exists literal,
    tiles_to_array_literal width tiles = Ok literal /\
    compact literal = inline_c_array tiles.
Proof.
  destruct (tiles_rows_not_empty width tiles positive) as (rows & E & C & N).
  unfold tiles_to_array_literal. rewrite E.
  eexists. split; [reflexivity|].
  rewrite compact_multiline by reflexivity.
  rewrite map_map.
  rewrite (map_ext_in (fun row => compact (join "," row)) (join ",")).
  - unfold inline_c_array. now rewrite join_rows, C.
  - intros row Hrow. rewrite (compact_join "," ",") by reflexivity.
    rewrite map_compact_fixed; [reflexivity|].
    rewrite Forall_forall in dense |- *. intros x Hx. apply dense.
    rewrite <- C. apply in_concat. eauto.
Qed.

Lemma tiles_literal_is_flat_witness :
  0 < 4 /\
  exists literal,
    tiles_to_array_literal 4 ["1"; "2"; "3"; "4"; "5"; "6"; "7"] = Ok literal
    /\ compact literal = "{1,2,3,4,5,6,7}".
Proof.
  assert (W : 0 < 4) by lia. split; [exact W|].
  exact (tiles_literal_is_flat 4 ["1"; "2"; "3"; "4"; "5"; "6"; "7"] W
           ltac:(repeat constructor)).
Defined.
